(** * pandare.arch: register tables, calling conventions and return values

    A shallow embedding of [panda/python/core/pandare/arch.py]: the
    [PandaArch] base class and its six subclasses ([ArmArch],
    [Aarch64Arch], [MipsArch], [Mips64Arch], [X86Arch], [X86_64Arch]).

    - Python dictionaries ([registers], [call_conventions], [reg_retval])
      are [gmap]s keyed by strings.
    - The guest CPU handed to every method is a record holding the raw
      register file (a list indexed like the engine's array), the
      program-counter field, the guest memory seen through
      [panda.virtual_memory_read], and the host's standard output.
    - Methods are computations in a state-and-exception monad: a raised
      Python exception keeps the state reached so far. *)

From Stdlib Require Import ZArith Lia Ascii String.
From stdpp Require Import base option list gmap strings fin_maps.

Local Open Scope string_scope.
Local Open Scope Z_scope.

(** ** Python string primitives used by the module *)

Module PyStr.

Definition is_lower (c : ascii) : bool :=
  ((97 <=? nat_of_ascii c) && (nat_of_ascii c <=? 122))%nat.

Definition is_upper (c : ascii) : bool :=
  ((65 <=? nat_of_ascii c) && (nat_of_ascii c <=? 90))%nat.

(** [chr(ord(c) - 32)] on the letters a..z, identity elsewhere. *)
Definition upper_char (c : ascii) : ascii :=
  if is_lower c then ascii_of_nat (nat_of_ascii c - 32) else c.

(** [str.upper()] on ASCII text. *)
Fixpoint upper (s : string) : string :=
  match s with
  | EmptyString => EmptyString
  | String c s' => String (upper_char c) (upper s')
  end.

(** [s.startswith(p)] *)
Fixpoint startswith (p s : string) : bool :=
  match p, s with
  | EmptyString, _ => true
  | String a p', String b s' => if decide (a = b) then startswith p' s' else false
  | String _ _, EmptyString => false
  end.

(** [s.split(sep)] for a non-empty separator: scan left to right, cut at
    every non-overlapping occurrence.  [skip] counts the characters of
    the occurrence just matched that are still to be dropped; [cur] is
    the piece being collected. *)
Fixpoint split_go (sep : string) (skip : nat) (cur : string) (s : string)
  : list string :=
  match s with
  | EmptyString => [cur]
  | String c s' =>
      match skip with
      | S k => split_go sep k cur s'
      | O =>
          if startswith sep s
          then cur :: split_go sep (String.length sep - 1) EmptyString s'
          else split_go sep O (cur +:+ String c EmptyString) s'
      end
  end.

Definition split (sep s : string) : list string := split_go sep O EmptyString s.

(** [chr(ord(c) + 32)] on the letters A..Z, identity elsewhere. *)
Definition lower_char (c : ascii) : ascii :=
  if is_upper c then ascii_of_nat (nat_of_ascii c + 32) else c.

Definition is_space (c : ascii) : bool :=
  let n := nat_of_ascii c in
  ((n =? 32) || ((9 <=? n) && (n <=? 13)) || ((28 <=? n) && (n <=? 31)))%nat.

Definition is_digit (c : ascii) : bool :=
  ((48 <=? nat_of_ascii c) && (nat_of_ascii c <=? 57))%nat.

Fixpoint lstrip (s : string) : string :=
  match s with
  | String c s' => if is_space c then lstrip s' else s
  | EmptyString => EmptyString
  end.

Definition strip (s : string) : string :=
  String.rev (lstrip (String.rev (lstrip s))).

(** Decimal digits, single underscores allowed between two digits. *)
Fixpoint digits (acc : Z) (after_digit : bool) (s : string) : option Z :=
  match s with
  | EmptyString => if after_digit then Some acc else None
  | String c s' =>
      if is_digit c
      then digits (10 * acc + Z.of_nat (nat_of_ascii c - 48)) true s'
      else if decide (c = "_"%char)
           then (if after_digit then digits acc false s' else None)
           else None
  end.

(** [int(s)] in base 10; [None] stands for the [ValueError] it raises. *)
Definition int (s : string) : option Z :=
  match strip s with
  | String "-" d => Z.opp <$> digits 0 false d
  | String "+" d => digits 0 false d
  | d => digits 0 false d
  end.

End PyStr.

(** ** Exceptions and the method monad *)

(** The exceptions the module can raise, one constructor per raise site
    (class and message), plus the faults of the primitives it calls. *)
Inductive exn :=
  | InvalidRegisterName (reg : string)   (* ValueError(f"Invalid register name {reg}") *)
  | CantSetRegister                      (* ValueError(f"Can't set register {reg}") *)
  | InvalidIntLiteral (s : string)       (* ValueError raised by int(s) *)
  | MemoryReadFailed (addr len : Z)      (* ValueError raised by virtual_memory_read *)
  | UnsupportedArgumentNumber (idx : Z)  (* NotImplementedError(f"Unsupported argument number {idx}") *)
  | UnsupportedConventionFor (conv : string) (* NotImplementedError(f"Unsupported convention {convention} ...") *)
  | UnsupportedGetRetval (conv : string) (* NotImplementedError(f"Unsupported get_retval ... {convention}") *)
  | PcUnsupported                        (* RuntimeError(f"get_pc unsupported ...") / set_pc *)
  | IndexError                           (* subscript out of range *)
  | OverflowError                        (* integer that does not fit the word *)
  | TypeError                           (* subscript that is not an integer *)
  | AssertionError.

Inductive py_class :=
  | PyValueError | PyNotImplementedError | PyRuntimeError
  | PyIndexError | PyOverflowError | PyTypeError | PyAssertionError.

Definition class_of_exn (e : exn) : py_class :=
  match e with
  | InvalidRegisterName _ | CantSetRegister
  | InvalidIntLiteral _ | MemoryReadFailed _ _ => PyValueError
  | UnsupportedArgumentNumber _ | UnsupportedConventionFor _
  | UnsupportedGetRetval _ => PyNotImplementedError
  | PcUnsupported => PyRuntimeError
  | IndexError => PyIndexError
  | OverflowError => PyOverflowError
  | TypeError => PyTypeError
  | AssertionError => PyAssertionError
  end.

(** The error kinds of the design document (section 7), and the raise
    site each one names.  An exception that none of them names is a
    [Crash]. *)
Inductive error_kind :=
  | UnknownRegister | InvalidRegisterReference | UnsupportedOperation
  | UnsupportedConvention | ArgumentIndexOutOfRange | MemoryReadError
  | Crash.

Definition kind_of (e : exn) : error_kind :=
  match e with
  | InvalidRegisterName _ => UnknownRegister
  | CantSetRegister => InvalidRegisterReference
  | PcUnsupported => UnsupportedOperation
  | UnsupportedConventionFor _ | UnsupportedGetRetval _ => UnsupportedConvention
  | UnsupportedArgumentNumber _ => ArgumentIndexOutOfRange
  | MemoryReadFailed _ _ => MemoryReadError
  | InvalidIntLiteral _ | IndexError | OverflowError | TypeError
  | AssertionError => Crash
  end.

Inductive res (A : Type) :=
  | Ok (a : A)
  | Raise (e : exn).
Arguments Ok {A} a.
Arguments Raise {A} e.

(** The guest CPU as the methods see it.
    - [regs]: the raw register array of the variant ([env_ptr.regs],
      [env_ptr.xregs] or [env_ptr.active_tc.gpr]); every slot is an
      unsigned machine word of the architecture's width, and storing an
      integer that does not fit it raises [OverflowError].
    - [pc]: the separate program-counter field ([env_ptr.pc],
      [env_ptr.eip] or [env_ptr.active_tc.PC]), a word of the same kind.
    - [vmem addr len]: what [panda.virtual_memory_read(cpu, addr, len,
      fmt='int')] answers; [None] when the read fails.
    - [console]: lines printed so far. *)
Record cpu_state := CPU {
  regs : list Z;
  pc : Z;
  vmem : Z -> Z -> option Z;
  console : list string
}.

Definition with_regs (s : cpu_state) (r : list Z) : cpu_state :=
  CPU r (pc s) (vmem s) (console s).
Definition with_pc (s : cpu_state) (v : Z) : cpu_state :=
  CPU (regs s) v (vmem s) (console s).
Definition with_line (s : cpu_state) (l : string) : cpu_state :=
  CPU (regs s) (pc s) (vmem s) (console s ++ [l]).

Definition M (A : Type) : Type := cpu_state -> res A * cpu_state.

Definition ret {A} (a : A) : M A := fun s => (Ok a, s).
Definition raise {A} (e : exn) : M A := fun s => (Raise e, s).
Definition bind {A B} (m : M A) (f : A -> M B) : M B :=
  fun s => match m s with
           | (Ok a, s') => f a s'
           | (Raise e, s') => (Raise e, s')
           end.

Notation "x <- m ;; k" := (bind m (fun x => k))
  (at level 100, m at next level, right associativity).
Notation "m ;;; k" := (bind m (fun _ => k))
  (at level 100, right associativity).

(** [arr[idx]] *)
Definition read_slot (idx : nat) : M Z :=
  fun s => match regs s !! idx with
           | Some v => (Ok v, s)
           | None => (Raise IndexError, s)
           end.

(** [arr[idx] = val] on an array of unsigned [w]-bit words: the subscript
    is checked first, then the value, which must fit the word. *)
Definition write_slot (w : Z) (idx : nat) (val : Z) : M unit :=
  fun s => if decide (idx < length (regs s))%nat
           then if decide (0 <= val < 2 ^ w)
                then (Ok tt, with_regs s (<[idx := val]> (regs s)))
                else (Raise OverflowError, s)
           else (Raise IndexError, s).

(** [env_ptr.pc = val] (or [eip], or [active_tc.PC]): the field is an
    unsigned [w]-bit word, and the value must fit it. *)
Definition write_pc (w : Z) (val : Z) : M unit :=
  fun s => if decide (0 <= val < 2 ^ w)
           then (Ok tt, with_pc s val)
           else (Raise OverflowError, s).

Definition print (l : string) : M unit := fun s => (Ok tt, with_line s l).

(** [panda.virtual_memory_read(cpu, addr, len, fmt='int')] *)
Definition virtual_memory_read (addr len : Z) : M Z :=
  fun s => match vmem s addr len with
           | Some v => (Ok v, s)
           | None => (Raise (MemoryReadFailed addr len), s)
           end.

(** [l[i]] on a Python list, negative subscripts counting from the end. *)
Definition py_index {A} (l : list A) (i : Z) : option A :=
  if 0 <=? i then l !! Z.to_nat i
  else if - Z.of_nat (length l) <=? i then l !! Z.to_nat (Z.of_nat (length l) + i)
  else None.

(** A list comprehension [[f(x) for x in l]] whose body is a method call:
    the calls run left to right, the first exception ends the run. *)
Fixpoint mapM {A B} (f : A -> M B) (l : list A) : M (list B) :=
  match l with
  | [] => ret []
  | x :: l' => v <- f x ;; vs <- mapM f l' ;; ret (v :: vs)
  end.

(** ** Architectures *)

Inductive endianness := little | big.

(** [PandaArch._determine_bits], on the architecture name: bits, byte
    order and register size; [None] where its assertions fail. *)
Definition _determine_bits (arch_name : string) : option (Z * endianness * Z) :=
  let r :=
    if decide (arch_name = "i386") then Some (32, little)
    else if decide (arch_name = "x86_64") then Some (64, little)
    else if decide (arch_name = "arm") then Some (32, little)
    else if decide (arch_name = "aarch64") then Some (64, little)
    else if decide (arch_name = "ppc") then Some (32, big)
    else if decide (arch_name = "mips") then Some (32, big)
    else if decide (arch_name = "mipsel") then Some (32, little)
    else if decide (arch_name = "mips64") then Some (64, big)
    else None in
  match r with
  | Some (bits, e) => Some (bits, e, bits / 8)
  | None => None
  end.

Inductive arch_class :=
  | ArmArch | Aarch64Arch | MipsArch | Mips64Arch | X86Arch | X86_64Arch.

#[global] Instance arch_class_eq_dec : EqDecision arch_class.
Proof. solve_decision. Defined.

(** The guest architectures that have a class in this module. *)
Inductive target := i386 | x86_64 | arm | aarch64 | mips | mipsel | mips64.

Definition arch_name (t : target) : string :=
  match t with
  | i386 => "i386" | x86_64 => "x86_64" | arm => "arm" | aarch64 => "aarch64"
  | mips => "mips" | mipsel => "mipsel" | mips64 => "mips64"
  end.

(** Modelled from the spec: the choice of the class for an architecture
    name is made where the session object is built, outside this module;
    the design document builds the profile from the reported architecture
    name, one variant per class docstring. *)
Definition class_of (t : target) : arch_class :=
  match t with
  | i386 => X86Arch | x86_64 => X86_64Arch | arm => ArmArch
  | aarch64 => Aarch64Arch | mips | mipsel => MipsArch | mips64 => Mips64Arch
  end.

(** [panda.bits] *)
Definition bits (t : target) : Z :=
  match _determine_bits (arch_name t) with
  | Some (b, _, _) => b
  | None => 0
  end.

(** Modelled from the spec: [panda.from_unsigned_guest] is defined with
    the session object, outside this module; the design document has it
    reinterpret the unsigned machine word as a two's-complement signed
    word at the profile's word width. *)
Definition from_unsigned_guest (t : target) (x : Z) : Z :=
  if 2 ^ (bits t - 1) <=? x then x - 2 ^ bits t else x.

(** [{f(names[idx]): idx for idx in range(len(names))}]: a later entry
    replaces an earlier one with the same key. *)
Definition dict_of_names (f : string -> string) (names : list string)
  : gmap string nat :=
  foldl (fun m idx =>
           match names !! idx with
           | Some n => <[f n := idx]> m
           | None => m
           end) ∅ (seq 0 (length names)).

Definition regnames (c : arch_class) : list string :=
  match c with
  | ArmArch =>
      ["R0"; "R1"; "R2"; "R3"; "R4"; "R5"; "R6"; "R7";
       "R8"; "R9"; "R10"; "R11"; "R12"; "SP"; "LR"; "IP"]
  | Aarch64Arch =>
      ["X0";  "X1";  "X2";  "X3";  "X4";  "X5"; "X6"; "X7";
       "XR";  "X9";  "X10"; "X11"; "X12"; "X13"; "X14";
       "X15"; "IP0"; "IP1"; "PR"; "X19"; "X20"; "X21";
       "X22"; "X23"; "X24"; "X25"; "X26"; "X27"; "X27";
       "X28"; "FP"; "LR"; "SP"]
  | MipsArch =>
      ["zero"; "at"; "v0"; "v1"; "a0"; "a1"; "a2"; "a3";
       "t0"; "t1"; "t2"; "t3"; "t4"; "t5"; "t6"; "t7";
       "s0"; "s1"; "s2"; "s3"; "s4"; "s5"; "s6"; "s7";
       "t8"; "t9"; "k0"; "k1"; "gp"; "sp"; "fp"; "ra"]
  | Mips64Arch =>
      ["zero"; "at";   "v0";   "v1";   "a0";   "a1";   "a2";   "a3";
       "a4";   "a5";   "a6";   "a7";   "t0";   "t1";   "t2";   "t3";
       "s0";   "s1";   "s2";   "s3";   "s4";   "s5";   "s6";   "s7";
       "t8";   "t9";   "k0";   "k1";   "gp";   "sp";   "s8";   "ra"]
  | X86Arch =>
      ["EAX"; "ECX"; "EDX"; "EBX"; "ESP"; "EBP"; "ESI"; "EDI"]
  | X86_64Arch =>
      ["RAX"; "RCX"; "RDX"; "RBX"; "RSP"; "RBP"; "RSI"; "RDI";
       "R8"; "R9"; "R10"; "R11"; "R12"; "R13"; "R14"; "R15"]
  end.

(** [self.registers] *)
Definition registers (c : arch_class) : gmap string nat :=
  match c with
  | MipsArch | Mips64Arch => dict_of_names PyStr.upper (regnames c)
  | _ => dict_of_names id (regnames c)
  end.

(** [regnames.index(n)] where the constructors use it; every name asked
    for is in the list. *)
Fixpoint index_of (n : string) (l : list string) : nat :=
  match l with
  | [] => 0
  | x :: l' => if decide (x = n) then 0 else S (index_of n l')
  end.

(** [self.reg_sp] *)
Definition reg_sp (c : arch_class) : nat :=
  match c with
  | ArmArch | Aarch64Arch => index_of "SP" (regnames c)
  | MipsArch | Mips64Arch => index_of "sp" (regnames c)
  | X86Arch => index_of "ESP" (regnames c)
  | X86_64Arch => index_of "RSP" (regnames c)
  end.

(** [self.reg_pc]: only [ArmArch] assigns it. *)
Definition reg_pc (c : arch_class) : option nat :=
  match c with
  | ArmArch => Some (index_of "IP" (regnames c))
  | _ => None
  end.

(** [self.reg_retaddr] *)
Definition reg_retaddr (c : arch_class) : option nat :=
  match c with
  | ArmArch | Aarch64Arch => Some (index_of "LR" (regnames c))
  | MipsArch | Mips64Arch => Some (index_of "ra" (regnames c))
  | X86Arch | X86_64Arch => None
  end.

(** [self.call_conventions]; the last insertion is the ['default'] alias. *)
Definition call_conventions (c : arch_class) : gmap string (list string) :=
  match c with
  | ArmArch =>
      let arm32 := ["R0"; "R1"; "R2"; "R3"] in
      <["default" := arm32]>
        (<["syscall" := ["R7"; "R0"; "R1"; "R2"; "R3"; "R4"; "R5"]]>
           (<["arm32" := arm32]> ∅))
  | Aarch64Arch =>
      let arm64 := ["X0"; "X1"; "X2"; "X3"; "X4"; "X5"; "X6"; "X7"] in
      <["default" := arm64]>
        (<["syscall" := ["XR"; "X0"; "X1"; "X2"; "X3"; "X4"; "X5"; "X6"; "X7"]]>
           (<["arm64" := arm64]> ∅))
  | MipsArch =>
      let o32 := ["A0"; "A1"; "A2"; "A3"] in
      <["default" := o32]>
        (<["syscall" := ["V0"; "A0"; "A1"; "A2"; "A3";
                         "stack_1"; "stack_2"; "stack_3"; "stack_4"]]>
           (<["mips" := o32]> ∅))
  | Mips64Arch =>
      let n64 := ["A0"; "A1"; "A2"; "A3"] in
      <["default" := n64]>
        (<["syscall" := ["V0"; "A0"; "A1"; "A2"; "A3"; "A4"; "A5"]]>
           (<["mips" := n64]> ∅))
  | X86Arch =>
      (* ["stack_{x}" for x in range(20)]: a plain string literal *)
      let cdecl := (fun x : nat => "stack_{x}") <$> seq 0 20 in
      <["default" := cdecl]>
        (<["syscall" := ["EAX"; "EBX"; "ECX"; "EDX"; "ESI"; "EDI"; "EBP"]]>
           (<["cdecl" := cdecl]> ∅))
  | X86_64Arch =>
      let sysv := ["RDI"; "RSI"; "RDX"; "RCX"; "R8"; "R9"] in
      <["default" := sysv]>
        (<["syscall" := ["RAX"; "RDI"; "RSI"; "RDX"; "R10"; "R8"; "R9"]]>
           (<["sysv" := sysv]> ∅))
  end.

(** [self.reg_retval] *)
Definition reg_retval (c : arch_class) : gmap string string :=
  match c with
  | ArmArch => <["syscall" := "R0"]> (<["default" := "R0"]> ∅)
  | Aarch64Arch => <["syscall" := "X0"]> (<["default" := "X0"]> ∅)
  | MipsArch | Mips64Arch => <["syscall" := "V0"]> (<["default" := "V0"]> ∅)
  | X86Arch => <["syscall" := "EAX"]> (<["default" := "EAX"]> ∅)
  | X86_64Arch =>
      <["default" := "RAX"]> (<["syscall" := "RAX"]> (<["sysv" := "RAX"]> ∅))
  end.

(** ** Methods *)

(** A register reference: the [reg] argument is a [str], an [int] (a slot
    index; the tables only hold non-negative ones), or anything else. *)
Inductive reg_ref :=
  | RegName (name : string)
  | RegIdx (idx : nat)
  | RegOther.

Section Methods.

Variable t : target.

Local Abbreviation c := (class_of t).

(** [_get_reg_val]: the variant's read of one slot. *)
Definition _get_reg_val (reg : nat) : M Z :=
  match c with
  | Aarch64Arch =>
      if decide (reg = 32%nat)
      then print "WARNING: unsupported get sp for aarch64" ;;; ret 0
      else read_slot reg
  | _ => read_slot reg
  end.

(** [_set_reg_val]: the variant's write of one slot. *)
Definition _set_reg_val (reg : nat) (val : Z) : M unit :=
  write_slot (bits t) reg val.

(** [PandaArch.get_reg] *)
Definition get_reg (reg : reg_ref) : M Z :=
  match reg with
  | RegName name =>
      let reg := PyStr.upper name in
      match registers c !! reg with
      | None => raise (InvalidRegisterName reg)
      | Some idx => _get_reg_val idx
      end
  | RegIdx idx => _get_reg_val idx
  | RegOther => raise TypeError
  end.

(** [PandaArch.set_reg] *)
Definition set_reg (reg : reg_ref) (val : Z) : M unit :=
  match reg with
  | RegName name =>
      let reg := PyStr.upper name in
      match registers c !! reg with
      | None => raise (InvalidRegisterName reg)
      | Some idx => _set_reg_val idx val
      end
  | RegIdx idx => _set_reg_val idx val
  | RegOther => raise CantSetRegister
  end.

(** [get_pc] and [set_pc]: through [reg_pc] in the base class, the separate
    field where the variant overrides them. *)
Definition get_pc : M Z :=
  match c with
  | ArmArch =>
      match reg_pc c with
      | Some (S _ as r) => get_reg (RegIdx r)
      | _ => raise PcUnsupported
      end
  | _ => fun s => (Ok (pc s), s)
  end.

Definition set_pc (val : Z) : M unit :=
  match c with
  | ArmArch =>
      match reg_pc c with
      | Some (S _ as r) => set_reg (RegIdx r) val
      | _ => raise PcUnsupported
      end
  | _ => write_pc (bits t) val
  end.

(** [PandaArch._get_arg_loc]; every class stores a non-empty
    dictionary in [call_conventions]. *)
Definition _get_arg_loc (idx : Z) (convention : string) : M string :=
  match call_conventions c !! convention with
  | Some locs =>
      if idx <? Z.of_nat (length locs)
      then match py_index locs idx with
           | Some loc => ret loc
           | None => raise IndexError
           end
      else raise (UnsupportedArgumentNumber idx)
  | None => raise (UnsupportedConventionFor convention)
  end.

(** [PandaArch._get_ret_val_reg] *)
Definition _get_ret_val_reg (convention : string) : M string :=
  match reg_retval c !! convention with
  | Some r => ret r
  | None => raise (UnsupportedGetRetval convention)
  end.

(** [PandaArch.set_arg] *)
Definition set_arg (idx : Z) (val : Z) (convention : string) : M unit :=
  reg <- _get_arg_loc idx convention ;;
  set_reg (RegName reg) val.

(** [PandaArch._is_stack_loc] *)
Definition _is_stack_loc (argloc : string) : bool :=
  PyStr.startswith "stack_" argloc.

(** [PandaArch._read_stack] *)
Definition _read_stack (argloc : string) : M Z :=
  if negb (_is_stack_loc argloc) then raise AssertionError
  else
    match PyStr.split "stack_" argloc !! 1%nat with
    | None => raise IndexError
    | Some digits =>
        match PyStr.int digits with
        | None => raise (InvalidIntLiteral digits)
        | Some stack_idx =>
            stack_base <- get_reg (RegIdx (reg_sp c)) ;;
            let arg_sz := bits t / 8 in
            let offset := arg_sz * (stack_idx + 1) in
            virtual_memory_read (stack_base + offset) arg_sz
        end
    end.

(** [PandaArch.get_arg] *)
Definition get_arg (idx : Z) (convention : string) : M Z :=
  argloc <- _get_arg_loc idx convention ;;
  if _is_stack_loc argloc
  then _read_stack argloc
  else get_reg (RegName argloc).

(** [PandaArch.set_retval] *)
Definition base_set_retval (val : Z) (convention : string) : M unit :=
  reg <- _get_ret_val_reg convention ;;
  set_reg (RegName reg) val.

(** [PandaArch.get_retval] *)
Definition base_get_retval (convention : string) : M Z :=
  reg <- _get_ret_val_reg convention ;;
  rv <- get_reg (RegName reg) ;;
  if decide (convention = "syscall")
  then ret (from_unsigned_guest t rv)
  else ret rv.

(** [MipsArch.get_retval]; the call to the base class passes no
    convention, so the base class runs with ['default']. *)
Definition mips_get_retval (convention : string) : M Z :=
  flip <- (if decide (convention = "syscall")
           then a3 <- get_reg (RegName "A3") ;;
                ret (if decide (a3 = 1) then -1 else 1)
           else ret 1) ;;
  rv <- base_get_retval "default" ;;
  ret (flip * rv).

(** [MipsArch.set_retval] *)
Definition mips_set_retval (val : Z) (convention : string) (failure : bool)
  : M unit :=
  val <- (if decide (convention = "syscall")
          then set_reg (RegName "a3") (Z.b2z failure) ;;;
               ret (if failure && (from_unsigned_guest t val <? 0)
                    then -1 * from_unsigned_guest t val
                    else val)
          else ret val) ;;
  base_set_retval val convention.

(** [get_retval] as dispatched on the class. *)
Definition get_retval (convention : string) : M Z :=
  match c with
  | MipsArch | Mips64Arch => mips_get_retval convention
  | _ => base_get_retval convention
  end.

(** [set_retval] as dispatched on the class. *)
Definition set_retval (val : Z) (convention : string) (failure : bool)
  : M unit :=
  match c with
  | MipsArch | Mips64Arch => mips_set_retval val convention failure
  | _ => base_set_retval val convention
  end.

(** [get_return_address] *)
Definition get_return_address : M Z :=
  match c with
  | ArmArch | Aarch64Arch => get_reg (RegName "LR")
  | MipsArch | Mips64Arch => get_reg (RegName "RA")
  | X86Arch => esp <- get_reg (RegName "ESP") ;; virtual_memory_read esp 4
  | X86_64Arch => esp <- get_reg (RegName "RSP") ;; virtual_memory_read esp 8
  end.

(** [PandaArch.get_args] *)
Definition get_args (num : Z) (convention : string) : M (list Z) :=
  mapM (fun i : nat => get_arg (Z.of_nat i) convention) (seq 0 (Z.to_nat num)).

(** [get_return_value], the deprecated spelling of [get_retval]: every
    class calls [self.get_retval(cpu)]; [MipsArch] also takes a convention
    and drops it. *)
Definition get_return_value : M Z := get_retval "default".

Definition mips_get_return_value (convention : string) : M Z :=
  get_retval "default".

(** [MipsArch.get_call_return] *)
Definition get_call_return : M Z := get_return_address.

End Methods.

(** A register file of [n] zeroed slots, readable nowhere in memory. *)
Definition blank_cpu (n : nat) : cpu_state :=
  CPU (replicate n 0) 0 (fun _ _ => None) [].

(** ** Spelling a name in another case *)

(** [casing s n]: [s] is [n] with some of its letters switched between
    upper and lower case. *)
Inductive casing : string -> string -> Prop :=
  | casing_nil : casing EmptyString EmptyString
  | casing_keep ch s n :
      casing s n -> casing (String ch s) (String ch n)
  | casing_lower ch s n :
      PyStr.is_upper ch = true ->
      casing s n -> casing (String (PyStr.lower_char ch) s) (String ch n)
  | casing_upper ch s n :
      PyStr.is_lower ch = true ->
      casing s n -> casing (String (PyStr.upper_char ch) s) (String ch n).

Create HintDb casing_db.
#[export] Hint Constructors casing : casing_db.

(** [fails_with k r]: the call raised an exception of the kind [k]. *)
Definition fails_with {A} (k : error_kind) (r : res A) : Prop :=
  match r with
  | Raise e => kind_of e = k
  | Ok _ => False
  end.

Definition is_mips (t : target) : Prop :=
  class_of t = MipsArch \/ class_of t = Mips64Arch.

(** [stateless m]: running [m] leaves the CPU, the memory and the console
    as they were, whatever it answers. *)
Definition stateless {A} (m : M A) : Prop := forall s, snd (m s) = s.

(** The only line the module prints while reading a register. *)
Definition sp_warning : string := "WARNING: unsupported get sp for aarch64".

(** ** Sanity checks on concrete inputs *)

Example upper_a3 : PyStr.upper "a3" = "A3".
Proof. reflexivity. Qed.

Example split_stack_1 : PyStr.split "stack_" "stack_1" = [EmptyString; "1"].
Proof. reflexivity. Qed.

Example split_middle : PyStr.split "stack_" "abstack_cdstack_" = ["ab"; "cd"; EmptyString].
Proof. reflexivity. Qed.

Example int_examples :
  PyStr.int "12" = Some 12 /\ PyStr.int " -7 " = Some (-7) /\
  PyStr.int "1_0" = Some 10 /\ PyStr.int "{x}" = None /\
  PyStr.int "" = None /\ PyStr.int "1__0" = None.
Proof. repeat split. Qed.

Example bits_of_targets :
  bits i386 = 32 /\ bits x86_64 = 64 /\ bits arm = 32 /\ bits aarch64 = 64 /\
  bits mips = 32 /\ bits mipsel = 32 /\ bits mips64 = 64.
Proof. repeat split. Qed.

Example arm_get_arg_2 :
  fst (get_arg arm 2 "default" (CPU [10; 11; 12; 13] 0 (fun _ _ => None) [])) = Ok 12.
Proof. vm_compute. reflexivity. Qed.

Example mips_stack_arg :
  fst (get_arg mips 5 "syscall"
         (CPU (<[29%nat := 1000]> (replicate 32 0)) 0
              (fun a n => if decide (a = 1008 /\ n = 4) then Some 77 else None) []))
  = Ok 77.
Proof. vm_compute. reflexivity. Qed.

Example writes_must_fit_the_word :
  set_reg mips (RegName "V0") (-1) (blank_cpu 32)
  = (Raise OverflowError, blank_cpu 32) /\
  set_reg arm (RegName "R0") (2 ^ 40) (blank_cpu 16)
  = (Raise OverflowError, blank_cpu 16) /\
  set_pc i386 (-1) (blank_cpu 8) = (Raise OverflowError, blank_cpu 8) /\
  set_reg x86_64 (RegName "RAX") (2 ^ 64 - 1) (blank_cpu 16)
  = (Ok tt, with_regs (blank_cpu 16) (<[0%nat := 2 ^ 64 - 1]> (replicate 16 0))).
Proof. repeat split. Qed.

Example casing_r0 : casing "r0" "R0".
Proof. apply (casing_lower "R"); [reflexivity | auto with casing_db]. Qed.

(** ** Running the monad *)

Lemma bind_ok {A B} (m : M A) (f : A -> M B) s a s' :
  m s = (Ok a, s') -> bind m f s = f a s'.
Proof. intros H. unfold bind. now rewrite H. Qed.

Lemma bind_raise {A B} (m : M A) (f : A -> M B) s e s' :
  m s = (Raise e, s') -> bind m f s = (Raise e, s').
Proof. intros H. unfold bind. now rewrite H. Qed.

(** ** The tables, as data *)

(** Facts about a whole table are decided by running over its entries. *)
Ltac by_table :=
  refine (bool_decide_unpack _ _); vm_compute; exact I.

Lemma registers_keys_upper c k i :
  registers c !! k = Some i -> PyStr.upper k = k.
Proof.
  revert k i.
  change (map_Forall (fun k (_ : nat) => PyStr.upper k = k) (registers c)).
  destruct c; by_table.
Qed.

Lemma registers_keys_short c k i :
  registers c !! k = Some i -> (String.length k <= 4)%nat.
Proof.
  revert k i.
  change (map_Forall (fun k (_ : nat) => (String.length k <= 4)%nat) (registers c)).
  destruct c; by_table.
Qed.

Lemma aarch64_slot_32_is_sp k :
  registers Aarch64Arch !! k = Some 32%nat -> k = "SP".
Proof.
  revert k.
  assert (H : map_Forall (fun k (i : nat) => i = 32%nat -> k = "SP")
                         (registers Aarch64Arch)) by by_table.
  intros k Hk. exact (H k _ Hk eq_refl).
Qed.

(** ** Upper-casing *)

Lemma upper_char_lower_char ch :
  PyStr.is_upper ch = true -> PyStr.upper_char (PyStr.lower_char ch) = ch.
Proof.
  destruct ch as [[] [] [] [] [] [] [] []]; intros H; try discriminate H; reflexivity.
Qed.

Lemma upper_char_of_upper ch :
  PyStr.is_upper ch = true -> PyStr.upper_char ch = ch.
Proof.
  destruct ch as [[] [] [] [] [] [] [] []]; intros H; try discriminate H; reflexivity.
Qed.

Lemma upper_char_idem ch :
  PyStr.upper_char (PyStr.upper_char ch) = PyStr.upper_char ch.
Proof.
  destruct ch as [[] [] [] [] [] [] [] []]; reflexivity.
Qed.

Lemma upper_length s : String.length (PyStr.upper s) = String.length s.
Proof. induction s as [|ch s IH]; simpl; [reflexivity | now rewrite IH]. Qed.

Lemma casing_upper_eq s n : casing s n -> PyStr.upper s = PyStr.upper n.
Proof.
  induction 1 as [|ch s n _ IH|ch s n Hu _ IH|ch s n Hl _ IH]; simpl.
  - reflexivity.
  - now rewrite IH.
  - rewrite IH, upper_char_lower_char by exact Hu.
    now rewrite upper_char_of_upper.
  - now rewrite IH, upper_char_idem.
Qed.

Lemma startswith_length p s :
  PyStr.startswith p s = true -> (String.length p <= String.length s)%nat.
Proof.
  revert s. induction p as [|a p IH]; intros [|b s]; simpl; try lia; try discriminate.
  destruct (decide (a = b)); [|discriminate].
  intros H. apply IH in H. lia.
Qed.

(** The name of a stack location is the name of no register, in any
    table: it is at least six characters long. *)
Lemma stack_loc_not_a_register t argloc :
  _is_stack_loc argloc = true ->
  registers (class_of t) !! PyStr.upper argloc = None.
Proof.
  intros Hs. apply startswith_length in Hs. simpl in Hs.
  destruct (registers (class_of t) !! PyStr.upper argloc) as [i|] eqn:E; [|reflexivity].
  apply registers_keys_short in E. rewrite upper_length in E. lia.
Qed.

(** ** Register access *)

Section RegisterAccess.

Variable t : target.

Lemma get_reg_known name idx :
  registers (class_of t) !! name = Some idx ->
  get_reg t (RegName name) = _get_reg_val t idx.
Proof.
  intros H. unfold get_reg.
  rewrite (registers_keys_upper _ _ _ H). now rewrite H.
Qed.

Lemma set_reg_known name idx v :
  registers (class_of t) !! name = Some idx ->
  set_reg t (RegName name) v = _set_reg_val t idx v.
Proof.
  intros H. unfold set_reg.
  rewrite (registers_keys_upper _ _ _ H). now rewrite H.
Qed.

Lemma write_then_read_slot idx v s :
  (idx < length (regs s))%nat ->
  0 <= v < 2 ^ bits t ->
  write_slot (bits t) idx v s = (Ok tt, with_regs s (<[idx := v]> (regs s))) /\
  read_slot idx (with_regs s (<[idx := v]> (regs s)))
  = (Ok v, with_regs s (<[idx := v]> (regs s))).
Proof.
  intros Hlt Hv. unfold write_slot, read_slot. split.
  - destruct (decide (idx < length (regs s))%nat); [|contradiction].
    destruct (decide (0 <= v < 2 ^ bits t)); [reflexivity | contradiction].
  - simpl. now rewrite list_lookup_insert_eq.
Qed.

Lemma get_reg_val_plain idx :
  ~ (class_of t = Aarch64Arch /\ idx = 32%nat) ->
  _get_reg_val t idx = read_slot idx.
Proof.
  intros Hn. unfold _get_reg_val.
  destruct (class_of t); try reflexivity.
  destruct (decide (idx = 32%nat)); [exfalso; auto | reflexivity].
Qed.

Lemma get_reg_read name idx v s :
  registers (class_of t) !! name = Some idx ->
  ~ (class_of t = Aarch64Arch /\ idx = 32%nat) ->
  regs s !! idx = Some v ->
  get_reg t (RegName name) s = (Ok v, s).
Proof.
  intros Hname Hn Hv.
  rewrite (get_reg_known name idx Hname), get_reg_val_plain by exact Hn.
  unfold read_slot. now rewrite Hv.
Qed.

Lemma set_reg_write name idx v s :
  registers (class_of t) !! name = Some idx ->
  (idx < length (regs s))%nat ->
  0 <= v < 2 ^ bits t ->
  set_reg t (RegName name) v s = (Ok tt, with_regs s (<[idx := v]> (regs s))).
Proof.
  intros Hname Hlt Hv.
  rewrite (set_reg_known name idx v Hname).
  unfold _set_reg_val. now apply write_then_read_slot.
Qed.

End RegisterAccess.

(** C3 (as amended). A value written to a register by name is the value
    read back by that name, for every architecture and every name of its
    table except AArch64's "SP", for every word-sized value, on a register
    file that has the slot of that name. *)
Theorem set_get_register_roundtrip t name idx v s :
  registers (class_of t) !! name = Some idx ->
  ~ (class_of t = Aarch64Arch /\ name = "SP") ->
  (idx < length (regs s))%nat ->
  0 <= v < 2 ^ bits t ->
  exists s',
    set_reg t (RegName name) v s = (Ok tt, s') /\
    get_reg t (RegName name) s' = (Ok v, s').
Proof.
  intros Hname Hsp Hslot Hv.
  exists (with_regs s (<[idx := v]> (regs s))).
  rewrite (set_reg_known t name idx v Hname), (get_reg_known t name idx Hname).
  rewrite get_reg_val_plain.
  - unfold _set_reg_val. now apply write_then_read_slot.
  - intros [Hc ->]. apply Hsp. split; [exact Hc|].
    rewrite Hc in Hname. now apply aarch64_slot_32_is_sp.
Qed.

Lemma set_get_register_roundtrip_witness :
  exists s',
    set_reg mips (RegName "V0") (2 ^ 32 - 1) (blank_cpu 32) = (Ok tt, s') /\
    get_reg mips (RegName "V0") s' = (Ok (2 ^ 32 - 1), s').
Proof.
  apply (set_get_register_roundtrip mips "V0" 2 (2 ^ 32 - 1) (blank_cpu 32)).
  - reflexivity.
  - intros [H _]. discriminate H.
  - simpl. lia.
  - vm_compute. split; [discriminate | reflexivity].
Defined.

(** C3 (as stated) fails on AArch64: "SP" is in the table and maps to
    index 32.  On a register file with a slot 32 the all-ones word is
    written there without error and the read that follows answers 0; on a
    register file of 32 slots the write raises the subscript error and the
    read answers 0 as well. *)
Lemma aarch64_sp_roundtrip_fails :
  let v := 2 ^ 64 - 1 in
  registers (class_of aarch64) !! "SP" = Some 32%nat /\
  0 <= v < 2 ^ bits aarch64 /\
  (let s := blank_cpu 33 in
   fst (set_reg aarch64 (RegName "SP") v s) = Ok tt /\
   regs (snd (set_reg aarch64 (RegName "SP") v s)) !! 32%nat = Some v /\
   fst (get_reg aarch64 (RegName "SP") (snd (set_reg aarch64 (RegName "SP") v s)))
   = Ok 0) /\
  (let s := blank_cpu 32 in
   fst (set_reg aarch64 (RegName "SP") v s) = Raise IndexError /\
   fst (get_reg aarch64 (RegName "SP") (snd (set_reg aarch64 (RegName "SP") v s)))
   = Ok 0) /\
  Ok 0 <> Ok v.
Proof.
  vm_compute. repeat split; discriminate.
Qed.

(** C9. Register lookup by name ignores case: on every architecture and
    every CPU state, reading a register of the table under any casing of
    its name gives the same result as reading it under the name itself
    (on ARM, "r0" and "R0"), and that result is the content of the slot
    the name maps to (the subscript error when the register file has no
    such slot; on AArch64's slot 32, the answer 0 and the warning). *)
Theorem get_register_case_insensitive t name idx spelled s :
  registers (class_of t) !! name = Some idx ->
  casing spelled name ->
  get_reg t (RegName spelled) s = get_reg t (RegName name) s /\
  get_reg t (RegName spelled) s
  = if decide (class_of t = Aarch64Arch /\ idx = 32%nat)
    then (Ok 0, with_line s sp_warning)
    else match regs s !! idx with
         | Some v => (Ok v, s)
         | None => (Raise IndexError, s)
         end.
Proof.
  intros Hname Hc.
  assert (E : get_reg t (RegName spelled) s = get_reg t (RegName name) s).
  { unfold get_reg. now rewrite (casing_upper_eq _ _ Hc). }
  split; [exact E|].
  rewrite E, (get_reg_known t name idx Hname).
  destruct (decide (class_of t = Aarch64Arch /\ idx = 32%nat)) as [[Hcl ->]|Hn].
  - unfold _get_reg_val. rewrite Hcl. reflexivity.
  - rewrite get_reg_val_plain by exact Hn. reflexivity.
Qed.

Lemma get_register_case_insensitive_witness :
  let s := CPU [41; 42] 0 (fun _ _ => None) [] in
  get_reg arm (RegName "r0") s = get_reg arm (RegName "R0") s /\
  get_reg arm (RegName "r0") s = (Ok 41, s).
Proof.
  intros s.
  apply (get_register_case_insensitive arm "R0" 0 "r0" s).
  - reflexivity.
  - exact casing_r0.
Defined.

(** C10. On AArch64 the name "SP", in any casing, resolves to index 32,
    and reading it answers 0 and prints a warning whatever the register
    file holds; so a non-zero value written under that name is never the
    value read back. *)
Theorem aarch64_sp_reads_zero spelled v s :
  casing spelled "SP" ->
  v <> 0 ->
  registers (class_of aarch64) !! PyStr.upper spelled = Some 32%nat /\
  get_reg aarch64 (RegName spelled) s
  = (Ok 0, with_line s "WARNING: unsupported get sp for aarch64") /\
  fst (get_reg aarch64 (RegName spelled)
         (snd (set_reg aarch64 (RegName spelled) v s))) <> Ok v.
Proof.
  intros Hc Hv.
  assert (Hget : forall s0, get_reg aarch64 (RegName spelled) s0
                 = (Ok 0, with_line s0 "WARNING: unsupported get sp for aarch64")).
  { intros s0. unfold get_reg. rewrite (casing_upper_eq _ _ Hc). reflexivity. }
  split; [|split].
  - now rewrite (casing_upper_eq _ _ Hc).
  - apply Hget.
  - rewrite Hget. simpl. intros H. apply Hv. now inversion H.
Qed.

Lemma aarch64_sp_reads_zero_witness :
  registers (class_of aarch64) !! PyStr.upper "Sp" = Some 32%nat /\
  get_reg aarch64 (RegName "Sp") (CPU (replicate 32 7) 0 (fun _ _ => None) [])
  = (Ok 0, with_line (CPU (replicate 32 7) 0 (fun _ _ => None) [])
             "WARNING: unsupported get sp for aarch64") /\
  fst (get_reg aarch64 (RegName "Sp")
         (snd (set_reg aarch64 (RegName "Sp") 5
                 (CPU (replicate 32 7) 0 (fun _ _ => None) [])))) <> Ok 5.
Proof.
  apply (aarch64_sp_reads_zero "Sp" 5).
  - apply casing_keep. apply (casing_lower "P"); [reflexivity | constructor].
  - discriminate.
Defined.

(** ** Arguments *)

Lemma get_arg_loc_state t idx conv s : snd (_get_arg_loc t idx conv s) = s.
Proof.
  unfold _get_arg_loc.
  destruct (call_conventions (class_of t) !! conv) as [locs|]; [|reflexivity].
  destruct (idx <? Z.of_nat (length locs)); [|reflexivity].
  destruct (py_index locs idx); reflexivity.
Qed.

(** C7. On every architecture, [get_arg] under a convention name the
    profile does not define raises the unsupported-convention error, and
    under a defined convention with an index at or past the end of its
    location list raises the unsupported-argument-number error; the CPU
    is left as it was. *)
Theorem get_argument_resolution_errors t idx conv s :
  (call_conventions (class_of t) !! conv = None ->
   get_arg t idx conv s = (Raise (UnsupportedConventionFor conv), s) /\
   fails_with UnsupportedConvention (fst (get_arg t idx conv s))) /\
  (forall locs,
     call_conventions (class_of t) !! conv = Some locs ->
     Z.of_nat (length locs) <= idx ->
     get_arg t idx conv s = (Raise (UnsupportedArgumentNumber idx), s) /\
     fails_with ArgumentIndexOutOfRange (fst (get_arg t idx conv s))).
Proof.
  split.
  - intros Hnone.
    assert (E : get_arg t idx conv s = (Raise (UnsupportedConventionFor conv), s)).
    { unfold get_arg, bind, _get_arg_loc. now rewrite Hnone. }
    rewrite E. split; reflexivity.
  - intros locs Hsome Hlen.
    assert (E : get_arg t idx conv s = (Raise (UnsupportedArgumentNumber idx), s)).
    { unfold get_arg, bind, _get_arg_loc. rewrite Hsome.
      destruct (Z.ltb_spec idx (Z.of_nat (length locs))); [lia | reflexivity]. }
    rewrite E. split; reflexivity.
Qed.

Lemma get_argument_resolution_errors_witness :
  (get_arg x86_64 0 "bogus" (blank_cpu 16)
   = (Raise (UnsupportedConventionFor "bogus"), blank_cpu 16) /\
   fails_with UnsupportedConvention (fst (get_arg x86_64 0 "bogus" (blank_cpu 16)))) /\
  (get_arg arm 4 "default" (blank_cpu 16)
   = (Raise (UnsupportedArgumentNumber 4), blank_cpu 16) /\
   fails_with ArgumentIndexOutOfRange (fst (get_arg arm 4 "default" (blank_cpu 16)))).
Proof.
  split.
  - apply (proj1 (get_argument_resolution_errors x86_64 0 "bogus" (blank_cpu 16))).
    reflexivity.
  - apply (proj2 (get_argument_resolution_errors arm 4 "default" (blank_cpu 16))
             ["R0"; "R1"; "R2"; "R3"]).
    + reflexivity.
    + simpl. lia.
Defined.

(** C8 (as amended). On every architecture, [set_arg] at an index whose
    resolved location is a stack slot fails, not silently: it raises the
    invalid-register-name error for the upper-cased location name (the
    unknown-register kind) and leaves the CPU as it was. *)
Theorem set_argument_stack_slot_fails t idx val conv loc s :
  fst (_get_arg_loc t idx conv s) = Ok loc ->
  _is_stack_loc loc = true ->
  set_arg t idx val conv s = (Raise (InvalidRegisterName (PyStr.upper loc)), s) /\
  fails_with UnknownRegister (fst (set_arg t idx val conv s)).
Proof.
  intros Hloc Hstack.
  assert (E : set_arg t idx val conv s
              = (Raise (InvalidRegisterName (PyStr.upper loc)), s)).
  { unfold set_arg, bind.
    pose proof (get_arg_loc_state t idx conv s) as Hs.
    destruct (_get_arg_loc t idx conv s) as [r s']. simpl in Hloc, Hs. subst r s'.
    unfold set_reg. now rewrite stack_loc_not_a_register. }
  rewrite E. split; reflexivity.
Qed.

Lemma set_argument_stack_slot_fails_witness :
  set_arg mips 6 99 "syscall" (blank_cpu 32)
  = (Raise (InvalidRegisterName (PyStr.upper "stack_2")), blank_cpu 32) /\
  fails_with UnknownRegister (fst (set_arg mips 6 99 "syscall" (blank_cpu 32))).
Proof.
  apply (set_argument_stack_slot_fails mips 6 99 "syscall" "stack_2" (blank_cpu 32));
    reflexivity.
Defined.

(** C8 (as stated) fails on MIPS32: argument 5 of the syscall convention
    resolves to the stack slot "stack_1", and writing it raises the
    invalid-register-name error, which is not of the unsupported-operation
    kind. *)
Lemma set_argument_stack_slot_not_unsupported_operation :
  fst (_get_arg_loc mips 5 "syscall" (blank_cpu 32)) = Ok "stack_1" /\
  _is_stack_loc "stack_1" = true /\
  fst (set_arg mips 5 0 "syscall" (blank_cpu 32))
  = Raise (InvalidRegisterName "STACK_1") /\
  ~ fails_with UnsupportedOperation (fst (set_arg mips 5 0 "syscall" (blank_cpu 32))).
Proof.
  repeat split. vm_compute. discriminate.
Qed.

(** The stack reader on a numbered location of a 32-bit target whose stack
    pointer is readable: one word at [sp + 4 * (n + 1)]. *)
Lemma read_stack_stack_0_i386 s esp :
  regs s !! 4%nat = Some esp ->
  _read_stack i386 "stack_0" s = virtual_memory_read (esp + 4) 4 s.
Proof.
  intros H. unfold _read_stack, bind, get_reg. simpl.
  change (_get_reg_val i386 4 s) with (read_slot 4 s).
  unfold read_slot. rewrite H. reflexivity.
Qed.

(** C1 (what the code does). On X86 every entry of the "cdecl" list is the
    literal text "stack_{x}", so [get_arg] at index 0, under "cdecl" and
    under "default", raises the error of [int("{x}")] on every CPU state,
    before the stack pointer or the memory is read. *)
Theorem x86_cdecl_get_arg_raises s :
  call_conventions (class_of i386) !! "cdecl" = Some (replicate 20 "stack_{x}") /\
  get_arg i386 0 "cdecl" s = (Raise (InvalidIntLiteral "{x}"), s) /\
  get_arg i386 0 "default" s = (Raise (InvalidIntLiteral "{x}"), s) /\
  ~ fails_with MemoryReadError (fst (get_arg i386 0 "cdecl" s)).
Proof.
  repeat split. simpl. discriminate.
Qed.

(** The same at every index of the X86 "cdecl" list. *)
Lemma x86_cdecl_every_index_raises s i :
  0 <= i < 20 ->
  get_arg i386 i "cdecl" s = (Raise (InvalidIntLiteral "{x}"), s).
Proof.
  intros Hi.
  assert (E : i = Z.of_nat (Z.to_nat i)) by lia. rewrite E.
  assert (Hn : (Z.to_nat i < 20)%nat) by lia.
  clear E Hi. revert Hn. generalize (Z.to_nat i). intros n Hn.
  do 20 (destruct n as [|n]; [reflexivity|]). lia.
Qed.

(** ** Return values *)

Lemma mips_targets t : is_mips t -> t = mips \/ t = mipsel \/ t = mips64.
Proof. intros [H|H]; destruct t; try discriminate H; auto. Qed.

Lemma mips_tables t :
  is_mips t ->
  registers (class_of t) !! "A3" = Some 7%nat /\
  registers (class_of t) !! "V0" = Some 2%nat /\
  reg_retval (class_of t) !! "default" = Some "V0" /\
  reg_retval (class_of t) !! "syscall" = Some "V0".
Proof.
  intros Hm.
  destruct (mips_targets t Hm) as [-> | [-> | ->]]; vm_compute; auto.
Qed.

(** On the other variants the syscall return value is the signed reading
    of the return-value register. *)
Lemma get_retval_syscall_signed t s reg idx raw :
  ~ is_mips t ->
  reg_retval (class_of t) !! "syscall" = Some reg ->
  registers (class_of t) !! reg = Some idx ->
  idx <> 32%nat ->
  regs s !! idx = Some raw ->
  get_retval t "syscall" s = (Ok (from_unsigned_guest t raw), s).
Proof.
  intros Hm Hreg Hidx H32 Hraw.
  assert (E : get_retval t "syscall" = base_get_retval t "syscall").
  { unfold get_retval, is_mips in *. destruct (class_of t); tauto. }
  rewrite E. unfold base_get_retval.
  rewrite (bind_ok _ _ s reg s) by (unfold _get_ret_val_reg; now rewrite Hreg).
  rewrite (bind_ok _ _ s raw s) by (apply (get_reg_read t reg idx); tauto).
  destruct (decide ("syscall" = "syscall")); [reflexivity | congruence].
Qed.

(** [MipsArch.get_retval] under "syscall": the value read from V0 as it
    is, negated when A3 reads 1. *)
Lemma mips_get_retval_syscall t s a3 raw :
  is_mips t ->
  get_reg t (RegName "A3") s = (Ok a3, s) ->
  get_reg t (RegName "V0") s = (Ok raw, s) ->
  get_retval t "syscall" s = (Ok ((if decide (a3 = 1) then -1 else 1) * raw), s).
Proof.
  intros Hm Hg7 Hg2.
  destruct (mips_tables t Hm) as (_ & _ & Hdef & _).
  assert (E : get_retval t "syscall" = mips_get_retval t "syscall").
  { unfold get_retval. destruct Hm as [H|H]; rewrite H; reflexivity. }
  rewrite E. unfold mips_get_retval.
  destruct (decide ("syscall" = "syscall")); [|congruence].
  rewrite (bind_ok _ _ s (if decide (a3 = 1) then -1 else 1) s)
    by (now rewrite (bind_ok _ _ _ _ _ Hg7)).
  rewrite (bind_ok _ _ s raw s); [reflexivity|].
  unfold base_get_retval.
  rewrite (bind_ok _ _ s "V0" s) by (unfold _get_ret_val_reg; now rewrite Hdef).
  rewrite (bind_ok _ _ _ _ _ Hg2).
  destruct (decide ("default" = "syscall")); [discriminate | reflexivity].
Qed.

(** C2 (what the code does). On MIPS32 with V0 holding the all-ones word
    and A3 holding 0, [get_retval] under "syscall" answers 4294967295, the
    unsigned word itself, whose signed reading is -1. *)
Theorem mips_get_retval_syscall_unsigned :
  let s := CPU (<[2%nat := 2 ^ 32 - 1]> (replicate 32 0)) 0 (fun _ _ => None) [] in
  get_reg mips (RegName "V0") s = (Ok 4294967295, s) /\
  get_reg mips (RegName "A3") s = (Ok 0, s) /\
  get_retval mips "syscall" s = (Ok 4294967295, s) /\
  from_unsigned_guest mips 4294967295 = -1.
Proof.
  repeat split.
Qed.

(** C4 (as amended). On the MIPS variants, with the return register V0
    holding a word below 2^(w-1) (its own signed reading), [get_retval]
    under "syscall" answers the negated value when the status register A3
    holds 1 and the value itself when A3 holds anything else, 0 included;
    with A3 = 1 and 5 in the return register it answers -5, with A3 = 0 it
    answers 5. *)
Theorem mips_get_retval_sign_flip t s a3 raw :
  is_mips t ->
  get_reg t (RegName "A3") s = (Ok a3, s) ->
  get_reg t (RegName "V0") s = (Ok raw, s) ->
  0 <= raw < 2 ^ (bits t - 1) ->
  from_unsigned_guest t raw = raw /\
  get_retval t "syscall" s
  = (Ok (if decide (a3 = 1) then - from_unsigned_guest t raw
         else from_unsigned_guest t raw), s).
Proof.
  intros Hm Ha3 Hraw Hrange.
  assert (Hconv : from_unsigned_guest t raw = raw).
  { unfold from_unsigned_guest.
    destruct (Z.leb_spec (2 ^ (bits t - 1)) raw); [lia | reflexivity]. }
  split; [exact Hconv|].
  rewrite (mips_get_retval_syscall t s a3 raw Hm Ha3 Hraw), Hconv.
  destruct (decide (a3 = 1)); do 2 f_equal; lia.
Qed.

Lemma mips_get_retval_sign_flip_witness :
  let s1 := CPU (<[7%nat := 1]> (<[2%nat := 5]> (replicate 32 0))) 0
                (fun _ _ => None) [] in
  let s0 := CPU (<[7%nat := 0]> (<[2%nat := 5]> (replicate 32 0))) 0
                (fun _ _ => None) [] in
  get_retval mips64 "syscall" s1 = (Ok (-5), s1) /\
  get_retval mips "syscall" s0 = (Ok 5, s0).
Proof.
  intros s1 s0.
  assert (H64 : 0 <= 5 < 2 ^ (bits mips64 - 1)) by (vm_compute; split; congruence).
  assert (H32 : 0 <= 5 < 2 ^ (bits mips - 1)) by (vm_compute; split; congruence).
  split.
  - exact (proj2 (mips_get_retval_sign_flip mips64 s1 1 5 (or_intror eq_refl)
                    eq_refl eq_refl H64)).
  - exact (proj2 (mips_get_retval_sign_flip mips s0 0 5 (or_introl eq_refl)
                    eq_refl eq_refl H32)).
Defined.

(** C4 (as stated) fails on MIPS32 with A3 = 2: the status register is
    non-zero, the return register holds 5, and [get_retval] under
    "syscall" answers 5, not -5. *)
Lemma mips_get_retval_a3_two_not_flipped :
  let s := CPU (<[7%nat := 2]> (<[2%nat := 5]> (replicate 32 0))) 0
               (fun _ _ => None) [] in
  get_reg mips (RegName "A3") s = (Ok 2, s) /\ 2 <> 0 /\
  get_reg mips (RegName "V0") s = (Ok 5, s) /\
  get_retval mips "syscall" s = (Ok 5, s) /\
  fst (get_retval mips "syscall" s) <> Ok (- from_unsigned_guest mips 5).
Proof.
  repeat split; discriminate.
Qed.

Lemma mips_word_bounds t :
  is_mips t -> 1 < 2 ^ bits t /\ 0 < 2 ^ (bits t - 1).
Proof.
  intros Hm. destruct (mips_targets t Hm) as [-> | [-> | ->]]; split; reflexivity.
Qed.

(** [MipsArch.set_retval] under "syscall", on a register file that has
    the slots of A3 and V0: A3 is written first; the write of V0 that
    follows raises when the value to store does not fit the word, and A3
    keeps the flag. *)
Lemma mips_set_retval_run t val failure s :
  is_mips t ->
  (7 < length (regs s))%nat ->
  set_retval t val "syscall" failure s
  = let stored := if failure && (from_unsigned_guest t val <? 0)
                  then -1 * from_unsigned_guest t val else val in
    let s1 := with_regs s (<[7%nat := Z.b2z failure]> (regs s)) in
    if decide (0 <= stored < 2 ^ bits t)
    then (Ok tt, with_regs s (<[2%nat := stored]> (regs s1)))
    else (Raise OverflowError, s1).
Proof.
  intros Hm Hlen.
  destruct (mips_tables t Hm) as (HA3 & HV0 & _ & Hsys).
  destruct (mips_word_bounds t Hm) as [Hw _].
  assert (E : set_retval t val "syscall" failure
              = mips_set_retval t val "syscall" failure).
  { unfold set_retval. destruct Hm as [H|H]; rewrite H; reflexivity. }
  rewrite E. unfold mips_set_retval.
  destruct (decide ("syscall" = "syscall")); [|congruence].
  set (stored := if failure && (from_unsigned_guest t val <? 0)
                 then -1 * from_unsigned_guest t val else val).
  set (s1 := with_regs s (<[7%nat := Z.b2z failure]> (regs s))).
  cbv zeta.
  assert (Ha3 : set_reg t (RegName "a3") (Z.b2z failure) s = (Ok tt, s1)).
  { unfold set_reg. change (PyStr.upper "a3") with "A3". rewrite HA3.
    unfold _set_reg_val. apply write_then_read_slot; [lia|].
    destruct failure; simpl; lia. }
  rewrite (bind_ok _ _ s stored s1) by (now rewrite (bind_ok _ _ _ _ _ Ha3)).
  unfold base_set_retval.
  rewrite (bind_ok _ _ s1 "V0" s1) by (unfold _get_ret_val_reg; now rewrite Hsys).
  rewrite (set_reg_known t "V0" 2 stored HV0).
  unfold _set_reg_val, write_slot. simpl regs. rewrite length_insert.
  destruct (decide (2 < length (regs s))%nat); [|lia].
  destruct (decide (0 <= stored < 2 ^ bits t)); reflexivity.
Qed.

(** C5. On the MIPS variants [set_retval] under "syscall" stores the
    failure flag in the status register A3 and the value in the return
    register V0, except that when the flag is set and the signed reading of
    the value is negative it stores the magnitude instead (for a negative
    value, its absolute value), provided what is stored fits the register
    word; so with -7 and the flag set, A3 holds 1 and V0 holds 7. *)
Theorem mips_set_retval_syscall t val failure s :
  is_mips t ->
  (7 < length (regs s))%nat ->
  let stored :=
    if failure && (from_unsigned_guest t val <? 0)
    then Z.abs (from_unsigned_guest t val) else val in
  0 <= stored < 2 ^ bits t ->
  let s' := with_regs s (<[2%nat := stored]> (<[7%nat := Z.b2z failure]> (regs s))) in
  set_retval t val "syscall" failure s = (Ok tt, s') /\
  get_reg t (RegName "A3") s' = (Ok (Z.b2z failure), s') /\
  get_reg t (RegName "V0") s' = (Ok stored, s') /\
  (failure = true -> val < 0 -> stored = Z.abs val).
Proof.
  intros Hm Hlen stored Hfit s'.
  destruct (mips_tables t Hm) as (HA3 & HV0 & _ & _).
  destruct (mips_word_bounds t Hm) as [_ Hb].
  assert (Hno : forall i, ~ (class_of t = Aarch64Arch /\ i = 32%nat)).
  { intros i [H _]. destruct Hm as [H'|H']; congruence. }
  assert (Hst : (if failure && (from_unsigned_guest t val <? 0)
                 then -1 * from_unsigned_guest t val else val) = stored).
  { unfold stored. destruct failure; simpl; [|reflexivity].
    destruct (Z.ltb_spec (from_unsigned_guest t val) 0); lia. }
  split; [|split; [|split]].
  - rewrite (mips_set_retval_run t val failure s Hm Hlen). cbv zeta.
    rewrite Hst.
    destruct (decide (0 <= stored < 2 ^ bits t)); [reflexivity | contradiction].
  - apply (get_reg_read t "A3" 7); [exact HA3 | apply Hno |].
    simpl. rewrite list_lookup_insert_ne by discriminate.
    now rewrite list_lookup_insert_eq.
  - apply (get_reg_read t "V0" 2); [exact HV0 | apply Hno |].
    simpl. rewrite list_lookup_insert_eq; [reflexivity|].
    rewrite length_insert. lia.
  - intros -> Hneg. unfold stored, from_unsigned_guest.
    destruct (Z.leb_spec (2 ^ (bits t - 1)) val); [lia|].
    simpl. destruct (Z.ltb_spec val 0); [reflexivity | lia].
Qed.

Lemma mips_set_retval_syscall_witness :
  let s' := with_regs (blank_cpu 32)
              (<[2%nat := 7]> (<[7%nat := 1]> (regs (blank_cpu 32)))) in
  set_retval mips (-7) "syscall" true (blank_cpu 32) = (Ok tt, s') /\
  get_reg mips (RegName "A3") s' = (Ok 1, s') /\
  get_reg mips (RegName "V0") s' = (Ok 7, s') /\
  (true = true -> -7 < 0 -> 7 = Z.abs (-7)).
Proof.
  apply (mips_set_retval_syscall mips (-7) true (blank_cpu 32)).
  - left. reflexivity.
  - simpl. lia.
  - vm_compute. split; [discriminate | reflexivity].
Defined.

(** ** The profiles *)

(** Every key of a register table is in upper case, and every location of
    a convention and every return-value register is a stack location or a
    key of the register table. *)
Lemma profile_names_resolve c :
  map_Forall (fun k (_ : nat) => PyStr.upper k = k) (registers c) /\
  map_Forall (fun (_ : string) locs =>
                Forall (fun loc => _is_stack_loc loc = true \/
                                   is_Some (registers c !! loc)) locs)
             (call_conventions c) /\
  map_Forall (fun (_ : string) r => is_Some (registers c !! r)) (reg_retval c).
Proof.
  split; [|split]; destruct c; by_table.
Qed.

Lemma register_counts :
  size (registers ArmArch) = 16%nat /\ size (registers MipsArch) = 32%nat /\
  size (registers Mips64Arch) = 32%nat /\ size (registers X86Arch) = 8%nat /\
  size (registers X86_64Arch) = 16%nat.
Proof. repeat split; vm_compute; reflexivity. Qed.

(** C6 (what the code does). The AArch64 name list has 33 entries, but
    "X27" is written at positions 27 and 28: the later one wins, so the
    table has 32 keys, "X27" names slot 28 and nothing names slot 27. *)
Theorem aarch64_register_table_has_32_names :
  length (regnames Aarch64Arch) = 33%nat /\
  regnames Aarch64Arch !! 27%nat = Some "X27" /\
  regnames Aarch64Arch !! 28%nat = Some "X27" /\
  size (registers Aarch64Arch) = 32%nat /\
  registers Aarch64Arch !! "X27" = Some 28%nat /\
  map_Forall (fun (_ : string) idx => idx <> 27%nat) (registers Aarch64Arch).
Proof.
  repeat split; try (vm_compute; reflexivity). by_table.
Qed.

(** ** Further properties of the methods *)

(** *** What the tables guarantee *)

(** No two names of a register table share a slot. *)
Lemma registers_injective c k1 k2 i :
  registers c !! k1 = Some i -> registers c !! k2 = Some i -> k1 = k2.
Proof.
  revert k1 k2 i.
  assert (H : Forall (fun p1 : string * nat =>
                Forall (fun p2 : string * nat => p1.2 = p2.2 -> p1.1 = p2.1)
                       (map_to_list (registers c)))
                (map_to_list (registers c)))
    by (destruct c; by_table).
  intros k1 k2 i H1 H2.
  apply elem_of_map_to_list in H1, H2.
  rewrite Forall_forall in H. specialize (H _ H1).
  rewrite Forall_forall in H. exact (H _ H2 eq_refl).
Qed.

(** A location is quiet when reading it prints nothing: it is not a stack
    location of AArch64 and does not resolve to AArch64's slot 32. *)
Lemma convention_locations_quiet c :
  map_Forall (fun (_ : string) locs =>
                Forall (fun loc =>
                          c = Aarch64Arch ->
                          _is_stack_loc loc = false /\
                          registers c !! PyStr.upper loc <> Some 32%nat) locs)
             (call_conventions c).
Proof. destruct c; by_table. Qed.

Lemma retval_registers_quiet c :
  map_Forall (fun (_ : string) r =>
                is_Some (registers c !! PyStr.upper r) /\
                registers c !! PyStr.upper r <> Some 32%nat)
             (reg_retval c).
Proof. destruct c; by_table. Qed.

Lemma py_index_elem {A} (l : list A) i x : py_index l i = Some x -> x ∈ l.
Proof.
  unfold py_index. intros H.
  destruct (0 <=? i); [|destruct (- Z.of_nat (length l) <=? i); [|discriminate]];
    eapply list_elem_of_lookup_2; exact H.
Qed.

(** *** Computations that leave the state alone *)

Lemma stateless_ret {A} (a : A) : stateless (ret a).
Proof. intros s. reflexivity. Qed.

Lemma stateless_raise {A} e : stateless (@raise A e).
Proof. intros s. reflexivity. Qed.

Lemma stateless_bind_at {A B} (m : M A) (f : A -> M B) s :
  snd (m s) = s ->
  (forall a, fst (m s) = Ok a -> snd (f a s) = s) ->
  snd (bind m f s) = s.
Proof.
  unfold bind. destruct (m s) as [[a|e] s']; simpl; intros -> H; auto.
Qed.

Lemma stateless_bind {A B} (m : M A) (f : A -> M B) :
  stateless m -> (forall a, stateless (f a)) -> stateless (bind m f).
Proof. intros Hm Hf s. apply stateless_bind_at; [apply Hm | intros; apply Hf]. Qed.

Lemma stateless_read_slot idx : stateless (read_slot idx).
Proof. intros s. unfold read_slot. destruct (regs s !! idx); reflexivity. Qed.

Lemma stateless_virtual_memory_read a n : stateless (virtual_memory_read a n).
Proof. intros s. unfold virtual_memory_read. destruct (vmem s a n); reflexivity. Qed.

Lemma stateless_get_reg_val t idx :
  (class_of t = Aarch64Arch -> idx <> 32%nat) -> stateless (_get_reg_val t idx).
Proof.
  intros H. rewrite get_reg_val_plain by (intros [Hc Hi]; exact (H Hc Hi)).
  apply stateless_read_slot.
Qed.

Lemma stateless_get_reg_name t name :
  registers (class_of t) !! PyStr.upper name <> Some 32%nat ->
  stateless (get_reg t (RegName name)).
Proof.
  intros H. unfold get_reg.
  destruct (registers (class_of t) !! PyStr.upper name) as [idx|] eqn:E.
  - apply stateless_get_reg_val. intros _ ->. now apply H.
  - apply stateless_raise.
Qed.

Lemma stateless_get_arg_loc t idx conv : stateless (_get_arg_loc t idx conv).
Proof. intros s. apply get_arg_loc_state. Qed.

Lemma stateless_mapM {A B} (f : A -> M B) l :
  (forall x, stateless (f x)) -> stateless (mapM f l).
Proof.
  intros Hf. induction l as [|x l IH]; simpl.
  - apply stateless_ret.
  - apply stateless_bind; [apply Hf|]. intros v.
    apply stateless_bind; [exact IH|]. intros vs. apply stateless_ret.
Qed.

Lemma stateless_read_stack t argloc :
  class_of t <> Aarch64Arch -> stateless (_read_stack t argloc).
Proof.
  intros Hc. unfold _read_stack.
  destruct (negb (_is_stack_loc argloc)); [apply stateless_raise|].
  destruct (PyStr.split "stack_" argloc !! 1%nat) as [d|]; [|apply stateless_raise].
  destruct (PyStr.int d) as [n|]; [|apply stateless_raise].
  apply stateless_bind.
  - apply stateless_get_reg_val. intros H. contradiction.
  - intros base. apply stateless_virtual_memory_read.
Qed.

(** The location [_get_arg_loc] answers is an entry of the convention. *)
Lemma get_arg_loc_in_table t idx conv s loc :
  fst (_get_arg_loc t idx conv s) = Ok loc ->
  exists locs, call_conventions (class_of t) !! conv = Some locs /\ loc ∈ locs.
Proof.
  unfold _get_arg_loc.
  destruct (call_conventions (class_of t) !! conv) as [locs|]; [|discriminate].
  destruct (idx <? Z.of_nat (length locs)); [|discriminate].
  destruct (py_index locs idx) as [l|] eqn:P; [|discriminate].
  simpl. intros [= ->]. exists locs. split; [reflexivity|].
  eapply py_index_elem; exact P.
Qed.

Lemma stateless_get_arg t idx conv : stateless (get_arg t idx conv).
Proof.
  intros s. unfold get_arg.
  apply stateless_bind_at; [apply get_arg_loc_state|].
  intros loc Hloc.
  destruct (get_arg_loc_in_table t idx conv s loc Hloc) as (locs & Hlocs & Hin).
  pose proof (convention_locations_quiet (class_of t) conv locs Hlocs) as HF.
  rewrite Forall_forall in HF. specialize (HF loc Hin).
  destruct (_is_stack_loc loc) eqn:St.
  - apply stateless_read_stack. intros Hc. destruct (HF Hc); congruence.
  - unfold get_reg.
    destruct (registers (class_of t) !! PyStr.upper loc) as [i|] eqn:E; [|reflexivity].
    apply stateless_get_reg_val. intros Hc ->. now apply (HF Hc).
Qed.

Lemma stateless_base_get_retval t conv : stateless (base_get_retval t conv).
Proof.
  intros s. unfold base_get_retval.
  apply stateless_bind_at.
  - unfold _get_ret_val_reg. destruct (reg_retval (class_of t) !! conv); reflexivity.
  - intros r Hr. unfold _get_ret_val_reg in Hr.
    destruct (reg_retval (class_of t) !! conv) as [r'|] eqn:E; [|discriminate].
    simpl in Hr. injection Hr as ->.
    destruct (retval_registers_quiet (class_of t) conv r E) as [_ Hq].
    apply stateless_bind; [now apply stateless_get_reg_name|].
    intros rv. destruct (decide (conv = "syscall")); apply stateless_ret.
Qed.

Lemma stateless_get_retval t conv : stateless (get_retval t conv).
Proof.
  assert (Hm : stateless (mips_get_retval t conv)).
  { unfold mips_get_retval. apply stateless_bind.
    - destruct (decide (conv = "syscall")); [|apply stateless_ret].
      apply stateless_bind.
      + apply stateless_get_reg_name. destruct t; vm_compute; discriminate.
      + intros a3. apply stateless_ret.
    - intros flip. apply stateless_bind; [apply stateless_base_get_retval|].
      intros rv. apply stateless_ret. }
  unfold get_retval. destruct (class_of t); auto using stateless_base_get_retval.
Qed.

Lemma stateless_get_return_address t : stateless (get_return_address t).
Proof.
  destruct t; unfold get_return_address; cbn [class_of];
    try (apply stateless_get_reg_name; vm_compute; discriminate);
    (apply stateless_bind;
     [apply stateless_get_reg_name; vm_compute; discriminate
     | intros esp; apply stateless_virtual_memory_read]).
Qed.

Lemma stateless_get_pc t : stateless (get_pc t).
Proof.
  destruct t; intros s; try reflexivity.
  change (get_pc arm) with (_get_reg_val arm 15).
  apply stateless_get_reg_val. discriminate.
Qed.

(** *** Reading never writes *)

(** X1. Reading one argument or a list of arguments leaves the CPU, the
    memory and the console exactly as they were, on every architecture,
    for every index, count and convention name, whether the read answers
    or raises. *)
Theorem argument_reads_leave_state t s :
  (forall idx conv, snd (get_arg t idx conv s) = s) /\
  (forall num conv, snd (get_args t num conv s) = s).
Proof.
  split.
  - intros idx conv. apply stateless_get_arg.
  - intros num conv. unfold get_args.
    apply stateless_mapM. intros i. apply stateless_get_arg.
Qed.

(** X2. Reading the return value (under any convention name), the return
    address or the program counter leaves the CPU, the memory and the
    console exactly as they were, on every architecture. *)
Theorem retval_pc_reads_leave_state t s :
  (forall conv, snd (get_retval t conv s) = s) /\
  snd (get_return_value t s) = s /\
  snd (get_return_address t s) = s /\
  snd (get_call_return t s) = s /\
  snd (get_pc t s) = s.
Proof.
  repeat split.
  - intros conv. apply stateless_get_retval.
  - apply stateless_get_retval.
  - apply stateless_get_return_address.
  - apply stateless_get_return_address.
  - apply stateless_get_pc.
Qed.

(** X3. Reading a register, by name or by index, never changes the
    register file, the program counter or the memory; the console is
    unchanged too, unless the architecture is AArch64 and the read answers
    0 after printing the stack-pointer warning. *)
Theorem get_reg_only_prints t r s :
  regs (snd (get_reg t r s)) = regs s /\
  pc (snd (get_reg t r s)) = pc s /\
  vmem (snd (get_reg t r s)) = vmem s /\
  (console (snd (get_reg t r s)) = console s \/
   (class_of t = Aarch64Arch /\
    get_reg t r s = (Ok 0, with_line s sp_warning))).
Proof.
  assert (Hv : forall idx,
             snd (_get_reg_val t idx s) = s \/
             (class_of t = Aarch64Arch /\
              _get_reg_val t idx s = (Ok 0, with_line s sp_warning))).
  { intros idx.
    destruct (decide (class_of t = Aarch64Arch /\ idx = 32%nat)) as [[Hc ->]|Hn].
    - right. split; [exact Hc|]. unfold _get_reg_val. rewrite Hc. reflexivity.
    - left. rewrite get_reg_val_plain by exact Hn. apply stateless_read_slot. }
  assert (H : snd (get_reg t r s) = s \/
              (class_of t = Aarch64Arch /\
               get_reg t r s = (Ok 0, with_line s sp_warning))).
  { destruct r as [name|idx|]; simpl.
    - destruct (registers (class_of t) !! PyStr.upper name); [apply Hv | now left].
    - apply Hv.
    - now left. }
  destruct H as [-> | [Hc E]].
  - repeat split. now left.
  - rewrite E. repeat split. right. split; [exact Hc | reflexivity].
Qed.

(** *** Writing registers *)

(** The three ways the write of one slot can end. *)
Lemma set_reg_val_cases t idx v s :
  ((idx < length (regs s))%nat /\ 0 <= v < 2 ^ bits t /\
   _set_reg_val t idx v s = (Ok tt, with_regs s (<[idx := v]> (regs s)))) \/
  ((idx < length (regs s))%nat /\ ~ 0 <= v < 2 ^ bits t /\
   _set_reg_val t idx v s = (Raise OverflowError, s)) \/
  ((length (regs s) <= idx)%nat /\
   _set_reg_val t idx v s = (Raise IndexError, s)).
Proof.
  unfold _set_reg_val, write_slot.
  destruct (decide (idx < length (regs s))%nat).
  - destruct (decide (0 <= v < 2 ^ bits t)); [left | right; left]; auto.
  - right; right. split; [lia | reflexivity].
Qed.

(** X4. Writing a register by name never changes what another name of the
    table reads: on every architecture, for two different names of the
    register table, the value read under the second is the same before and
    after a write under the first, whether that write succeeds or not. *)
Theorem set_reg_keeps_other_registers t n1 n2 i1 i2 v s :
  registers (class_of t) !! n1 = Some i1 ->
  registers (class_of t) !! n2 = Some i2 ->
  n1 <> n2 ->
  fst (get_reg t (RegName n2) (snd (set_reg t (RegName n1) v s)))
  = fst (get_reg t (RegName n2) s).
Proof.
  intros H1 H2 Hne.
  assert (Hi : i1 <> i2).
  { intros ->. apply Hne. exact (registers_injective _ _ _ _ H1 H2). }
  rewrite (set_reg_known t n1 i1 v H1), !(get_reg_known t n2 i2 H2).
  destruct (set_reg_val_cases t i1 v s) as [(_ & _ & ->) | [(_ & _ & ->) | [_ ->]]];
    [|reflexivity|reflexivity].
  simpl.
  destruct (decide (class_of t = Aarch64Arch /\ i2 = 32%nat)) as [[Hc ->]|Hn].
  - unfold _get_reg_val. rewrite Hc. reflexivity.
  - rewrite !get_reg_val_plain by exact Hn.
    unfold read_slot. simpl. rewrite list_lookup_insert_ne by exact Hi.
    destruct (regs s !! i2); reflexivity.
Qed.

Lemma set_reg_keeps_other_registers_witness :
  fst (get_reg x86_64 (RegName "RBX")
         (snd (set_reg x86_64 (RegName "RAX") 99
                 (CPU [1; 2; 3; 4] 0 (fun _ _ => None) []))))
  = fst (get_reg x86_64 (RegName "RBX") (CPU [1; 2; 3; 4] 0 (fun _ _ => None) [])).
Proof.
  apply (set_reg_keeps_other_registers x86_64 "RAX" "RBX" 0 3).
  - reflexivity.
  - reflexivity.
  - discriminate.
Defined.

(** X5. Of two writes of word-sized values to the same register reference
    in a row only the second counts: the pair answers, fails and leaves
    the CPU exactly as the second write alone does. *)
Theorem set_reg_last_write_wins t r v1 v2 s :
  0 <= v1 < 2 ^ bits t ->
  0 <= v2 < 2 ^ bits t ->
  (set_reg t r v1 ;;; set_reg t r v2) s = set_reg t r v2 s.
Proof.
  intros H1 H2.
  assert (Hv : forall idx,
             (_set_reg_val t idx v1 ;;; _set_reg_val t idx v2) s
             = _set_reg_val t idx v2 s).
  { intros idx. unfold bind.
    destruct (set_reg_val_cases t idx v1 s)
      as [(Hlt & _ & ->) | [(_ & Hn & _) | [Hge E]]]; [|contradiction|].
    - unfold _set_reg_val, write_slot. simpl. rewrite length_insert.
      destruct (decide (idx < length (regs s))%nat); [|contradiction].
      destruct (decide (0 <= v2 < 2 ^ bits t)); [|contradiction].
      unfold with_regs. simpl. now rewrite list_insert_insert_eq.
    - rewrite E.
      destruct (set_reg_val_cases t idx v2 s)
        as [(Hlt & _) | [(Hlt & _) | [_ ->]]]; [lia | lia | reflexivity]. }
  destruct r as [name|idx|]; simpl.
  - destruct (registers (class_of t) !! PyStr.upper name); [apply Hv | reflexivity].
  - apply Hv.
  - reflexivity.
Qed.

Lemma set_reg_last_write_wins_witness :
  (set_reg i386 (RegName "eax") 7 ;;; set_reg i386 (RegName "eax") 9) (blank_cpu 8)
  = set_reg i386 (RegName "eax") 9 (blank_cpu 8).
Proof.
  apply (set_reg_last_write_wins i386 (RegName "eax") 7 9 (blank_cpu 8)).
  - vm_compute. split; [discriminate | reflexivity].
  - vm_compute. split; [discriminate | reflexivity].
Defined.

(** X6. Writing a register by name ignores case, like reading: a write
    under any casing of a name answers and leaves the CPU exactly as the
    write under the name itself. *)
Theorem set_register_case_insensitive t name spelled v s :
  casing spelled name ->
  set_reg t (RegName spelled) v s = set_reg t (RegName name) v s.
Proof.
  intros Hc. unfold set_reg. now rewrite (casing_upper_eq _ _ Hc).
Qed.

Lemma set_register_case_insensitive_witness :
  set_reg mips (RegName "a3") 1 (blank_cpu 32)
  = set_reg mips (RegName "A3") 1 (blank_cpu 32).
Proof.
  apply (set_register_case_insensitive mips "A3" "a3").
  apply (casing_lower "A"); [reflexivity|]. apply casing_keep. constructor.
Defined.

(** *** Arguments in registers *)



(** *** Arguments on the stack *)

(** The stack reader on a location that parses: one word at
    [sp + word * (n + 1)]. *)
Lemma read_stack_at t loc d n s sp :
  _is_stack_loc loc = true ->
  PyStr.split "stack_" loc !! 1%nat = Some d ->
  PyStr.int d = Some n ->
  class_of t <> Aarch64Arch ->
  regs s !! reg_sp (class_of t) = Some sp ->
  _read_stack t loc s
  = virtual_memory_read (sp + bits t / 8 * (n + 1)) (bits t / 8) s.
Proof.
  intros Hst Hd Hn Hc Hsp. unfold _read_stack. rewrite Hst, Hd, Hn.
  change (negb true) with false. cbv iota.
  rewrite (bind_ok _ _ s sp s); [reflexivity|]. unfold get_reg.
  rewrite get_reg_val_plain by (intros [H _]; contradiction).
  unfold read_slot. now rewrite Hsp.
Qed.

(** X8. The MIPS O32 syscall convention keeps arguments 5 to 8 on the
    stack: on MIPS32 (either byte order), with the stack pointer register
    holding [sp], [get_arg] at index [idx] in 5..8 under "syscall" is the
    4-byte memory read at [sp + 4 * (idx - 3)], and raises the memory-read
    error for that address when the read fails. *)
Theorem mips_o32_syscall_stack_arguments t idx s sp :
  class_of t = MipsArch ->
  5 <= idx <= 8 ->
  get_reg t (RegName "SP") s = (Ok sp, s) ->
  get_arg t idx "syscall" s = virtual_memory_read (sp + 4 * (idx - 3)) 4 s /\
  (vmem s (sp + 4 * (idx - 3)) 4 = None ->
   get_arg t idx "syscall" s = (Raise (MemoryReadFailed (sp + 4 * (idx - 3)) 4), s)).
Proof.
  intros Hc Hidx Hsp.
  assert (Hslot : regs s !! 29%nat = Some sp).
  { assert (E : get_reg t (RegName "SP") s = read_slot 29 s)
      by (destruct t; try discriminate Hc; reflexivity).
    rewrite E in Hsp. unfold read_slot in Hsp.
    destruct (regs s !! 29%nat); [|discriminate]. now injection Hsp as ->. }
  assert (E : get_arg t idx "syscall" s
              = virtual_memory_read (sp + 4 * (idx - 3)) 4 s).
  { assert (Hcases : idx = 5 \/ idx = 6 \/ idx = 7 \/ idx = 8) by lia.
    assert (Hna : class_of t <> Aarch64Arch) by (rewrite Hc; discriminate).
    assert (Hr : regs s !! reg_sp (class_of t) = Some sp) by (now rewrite Hc).
    assert (Hb : bits t / 8 = 4) by (destruct t; try discriminate Hc; reflexivity).
    unfold get_arg.
    destruct Hcases as [-> | [-> | [-> | ->]]].
    - rewrite (bind_ok _ _ s "stack_1" s) by (destruct t; try discriminate Hc; reflexivity).
      change (_is_stack_loc "stack_1") with true. cbv iota.
      rewrite (read_stack_at t "stack_1" "1" 1 s sp) by (auto; reflexivity).
      rewrite Hb. reflexivity.
    - rewrite (bind_ok _ _ s "stack_2" s) by (destruct t; try discriminate Hc; reflexivity).
      change (_is_stack_loc "stack_2") with true. cbv iota.
      rewrite (read_stack_at t "stack_2" "2" 2 s sp) by (auto; reflexivity).
      rewrite Hb. reflexivity.
    - rewrite (bind_ok _ _ s "stack_3" s) by (destruct t; try discriminate Hc; reflexivity).
      change (_is_stack_loc "stack_3") with true. cbv iota.
      rewrite (read_stack_at t "stack_3" "3" 3 s sp) by (auto; reflexivity).
      rewrite Hb. reflexivity.
    - rewrite (bind_ok _ _ s "stack_4" s) by (destruct t; try discriminate Hc; reflexivity).
      change (_is_stack_loc "stack_4") with true. cbv iota.
      rewrite (read_stack_at t "stack_4" "4" 4 s sp) by (auto; reflexivity).
      rewrite Hb. reflexivity. }
  split; [exact E|].
  intros Hfail. rewrite E. unfold virtual_memory_read. now rewrite Hfail.
Qed.

Lemma mips_o32_syscall_stack_arguments_witness :
  let s := CPU (<[29%nat := 4096]> (replicate 32 0)) 0
               (fun a n => if decide (a = 4108) then Some 11 else None) [] in
  get_arg mipsel 6 "syscall" s = virtual_memory_read (4096 + 4 * (6 - 3)) 4 s /\
  (vmem s (4096 + 4 * (6 - 3)) 4 = None ->
   get_arg mipsel 6 "syscall" s
   = (Raise (MemoryReadFailed (4096 + 4 * (6 - 3)) 4), s)).
Proof.
  intros s.
  apply (mips_o32_syscall_stack_arguments mipsel 6 s 4096).
  - reflexivity.
  - lia.
  - reflexivity.
Defined.

(** *** Indices *)

(** X9. A negative argument index counts from the end of the convention's
    location list, as a Python subscript does: for a defined convention
    of [n] locations, an index in [-n, 0) reads the same argument as the
    index plus [n], and an index below [-n] raises the subscript error
    (not the unsupported-argument-number error). *)
Theorem get_arg_negative_index t idx conv locs s :
  call_conventions (class_of t) !! conv = Some locs ->
  idx < 0 ->
  (- Z.of_nat (length locs) <= idx ->
   get_arg t idx conv s = get_arg t (Z.of_nat (length locs) + idx) conv s) /\
  (idx < - Z.of_nat (length locs) ->
   get_arg t idx conv s = (Raise IndexError, s)).
Proof.
  intros Hlocs Hneg.
  assert (Hlt : (idx <? Z.of_nat (length locs)) = true) by (apply Z.ltb_lt; lia).
  assert (H0 : (0 <=? idx) = false) by (apply Z.leb_gt; lia).
  split; intros Hr; unfold get_arg, bind, _get_arg_loc; rewrite Hlocs, Hlt.
  - assert (Hlt' : (Z.of_nat (length locs) + idx <? Z.of_nat (length locs)) = true)
      by (apply Z.ltb_lt; lia).
    assert (H0' : (0 <=? Z.of_nat (length locs) + idx) = true)
      by (apply Z.leb_le; lia).
    assert (Hge : (- Z.of_nat (length locs) <=? idx) = true)
      by (apply Z.leb_le; lia).
    rewrite Hlt'. unfold py_index. rewrite H0, H0', Hge. reflexivity.
  - assert (Hge : (- Z.of_nat (length locs) <=? idx) = false)
      by (apply Z.leb_gt; lia).
    unfold py_index. rewrite H0, Hge. reflexivity.
Qed.

Lemma get_arg_negative_index_witness :
  let s := CPU [10; 11; 12; 13] 0 (fun _ _ => None) [] in
  (- Z.of_nat (length ["R0"; "R1"; "R2"; "R3"]) <= -1 ->
   get_arg arm (-1) "arm32" s
   = get_arg arm (Z.of_nat (length ["R0"; "R1"; "R2"; "R3"]) + -1) "arm32" s) /\
  (-1 < - Z.of_nat (length ["R0"; "R1"; "R2"; "R3"]) ->
   get_arg arm (-1) "arm32" s = (Raise IndexError, s)).
Proof.
  intros s.
  apply (get_arg_negative_index arm (-1) "arm32" ["R0"; "R1"; "R2"; "R3"] s).
  - reflexivity.
  - lia.
Defined.

(** *** What reading an argument can raise *)

Lemma get_reg_read_or_index t name idx s :
  registers (class_of t) !! name = Some idx ->
  ~ (class_of t = Aarch64Arch /\ idx = 32%nat) ->
  get_reg t (RegName name) s = read_slot idx s.
Proof.
  intros Hname Hn.
  now rewrite (get_reg_known t name idx Hname), get_reg_val_plain by exact Hn.
Qed.

(** The text after "stack_" in every stack location of a table is a
    number, except for the entries of the X86 list, where it is "{x}". *)
Lemma stack_locations_parse c :
  map_Forall (fun (_ : string) locs =>
                Forall (fun loc =>
                          _is_stack_loc loc = true ->
                          c <> Aarch64Arch /\
                          (is_Some (PyStr.split "stack_" loc !! 1%nat ≫= PyStr.int) \/
                           c = X86Arch /\
                           PyStr.split "stack_" loc !! 1%nat = Some "{x}")) locs)
             (call_conventions c).
Proof. destruct c; by_table. Qed.

(** X10. When [get_arg] raises, on any architecture, it raises one of:
    the unsupported-convention error for the convention asked, the
    unsupported-argument-number error for the index asked, a subscript
    error (an index far below zero, or a register file without the slot),
    the memory-read error for one word, or, on X86 only, the error of
    [int("{x}")].  It never raises the invalid-register-name error, a
    failed assertion or a type error. *)
Theorem get_arg_raises_only t idx conv s e :
  fst (get_arg t idx conv s) = Raise e ->
  e = UnsupportedConventionFor conv \/
  e = UnsupportedArgumentNumber idx \/
  e = IndexError \/
  (exists a, e = MemoryReadFailed a (bits t / 8)) \/
  (class_of t = X86Arch /\ e = InvalidIntLiteral "{x}").
Proof.
  unfold get_arg, bind.
  destruct (_get_arg_loc t idx conv s) as [[loc|e0] s0] eqn:Eloc.
  2:{ simpl. intros [= <-]. unfold _get_arg_loc in Eloc.
      destruct (call_conventions (class_of t) !! conv) as [locs|];
        [|injection Eloc as <- _; auto].
      destruct (idx <? Z.of_nat (length locs)); [|injection Eloc as <- _; auto].
      destruct (py_index locs idx); [discriminate | injection Eloc as <- _; auto]. }
  assert (Hfst : fst (_get_arg_loc t idx conv s) = Ok loc) by (now rewrite Eloc).
  assert (Hs0 : s0 = s).
  { pose proof (get_arg_loc_state t idx conv s) as H. now rewrite Eloc in H. }
  subst s0.
  destruct (get_arg_loc_in_table t idx conv s loc Hfst) as (locs & Hlocs & Hin).
  pose proof (stack_locations_parse (class_of t) conv locs Hlocs) as HP.
  pose proof (proj1 (proj2 (profile_names_resolve (class_of t))) conv locs Hlocs) as HR.
  pose proof (convention_locations_quiet (class_of t) conv locs Hlocs) as HQ.
  rewrite Forall_forall in HP, HR, HQ.
  specialize (HP loc Hin). specialize (HR loc Hin). specialize (HQ loc Hin).
  destruct (_is_stack_loc loc) eqn:St.
  - destruct (HP eq_refl) as [Hna Hparse].
    unfold _read_stack. rewrite St. change (negb true) with false. cbv iota.
    destruct (PyStr.split "stack_" loc !! 1%nat) as [d|] eqn:Ed.
    2:{ destruct Hparse as [[x Hx] | [_ Hx]]; discriminate. }
    destruct (PyStr.int d) as [n|] eqn:En.
    + unfold bind, get_reg.
      rewrite get_reg_val_plain by (intros [H _]; contradiction).
      unfold read_slot. destruct (regs s !! reg_sp (class_of t)) as [sp|].
      * unfold virtual_memory_read.
        destruct (vmem s _ _); simpl; [discriminate|].
        intros [= <-]. right; right; right; left. eauto.
      * simpl. intros [= <-]. auto.
    + simpl. intros [= <-].
      destruct Hparse as [[x Hx] | [Hc Hx]].
      * simpl in Hx. rewrite En in Hx. discriminate.
      * injection Hx as ->. auto 6.
  - destruct HR as [Hs | [i Hi]]; [discriminate|].
    rewrite (get_reg_read_or_index t loc i s Hi).
    + unfold read_slot. destruct (regs s !! i); simpl; [discriminate|].
      intros [= <-]. auto.
    + intros [Hc ->]. destruct (HQ Hc) as [_ Hq]. apply Hq.
      now rewrite (registers_keys_upper _ _ _ Hi).
Qed.

Lemma get_arg_raises_only_witness :
  MemoryReadFailed 1008 4 = UnsupportedConventionFor "syscall" \/
  MemoryReadFailed 1008 4 = UnsupportedArgumentNumber 5 \/
  MemoryReadFailed 1008 4 = IndexError \/
  (exists a, MemoryReadFailed 1008 4 = MemoryReadFailed a (bits mips / 8)) \/
  (class_of mips = X86Arch /\ MemoryReadFailed 1008 4 = InvalidIntLiteral "{x}").
Proof.
  apply (get_arg_raises_only mips 5 "syscall"
           (CPU (<[29%nat := 1000]> (replicate 32 0)) 0 (fun _ _ => None) [])).
  reflexivity.
Defined.

(** *** Lists of arguments *)

Lemma mapM_ok_inv {A B} (f : A -> M B) l s vs s' :
  (forall x, stateless (f x)) ->
  mapM f l s = (Ok vs, s') ->
  s' = s /\ Forall2 (fun x v => f x s = (Ok v, s)) l vs.
Proof.
  intros Hf. revert vs s'. induction l as [|x l IH]; simpl; intros vs s'.
  - intros [= <- <-]. split; constructor.
  - unfold bind at 1. pose proof (Hf x s) as Hx.
    destruct (f x s) as [[v|e] s1] eqn:Ex; [|discriminate].
    simpl in Hx. subst s1.
    unfold bind at 1. destruct (mapM f l s) as [[vs0|e] s2] eqn:El; [|discriminate].
    destruct (IH vs0 s2 eq_refl) as [-> HF].
    intros [= <- <-]. split; [reflexivity | now constructor].
Qed.

Lemma mapM_ok_intro {A B} (f : A -> M B) l s vs :
  Forall2 (fun x v => f x s = (Ok v, s)) l vs ->
  mapM f l s = (Ok vs, s).
Proof.
  induction 1 as [|x v l vs Hx _ IH]; simpl; [reflexivity|].
  rewrite (bind_ok _ _ _ _ _ Hx), (bind_ok _ _ _ _ _ IH). reflexivity.
Qed.

Lemma mapM_raise_inv {A B} (f : A -> M B) l s e s' :
  (forall x, stateless (f x)) ->
  mapM f l s = (Raise e, s') ->
  exists x, x ∈ l /\ f x s = (Raise e, s).
Proof.
  intros Hf. induction l as [|x l IH]; simpl; [discriminate|].
  unfold bind at 1. pose proof (Hf x s) as Hx.
  destruct (f x s) as [[v|e0] s1] eqn:Ex; simpl in Hx; subst s1.
  - unfold bind at 1. destruct (mapM f l s) as [[vs0|e1] s2] eqn:El; [discriminate|].
    intros [= <- <-].
    pose proof (stateless_mapM f l Hf s) as Hl. rewrite El in Hl. simpl in Hl. subst s2.
    destruct (IH eq_refl) as (y & Hy & Ey). exists y. split; [now right | exact Ey].
  - intros [= <- <-]. exists x. split; [now left | exact Ex].
Qed.

(** X11. [get_args] is all or nothing.  It answers a list exactly when
    each of the indices 0 .. num-1 can be read on its own, and the list
    then holds those [num] values in order; when it raises, the exception
    is the one [get_arg] raises at one of these indices; and for a count
    of zero or less it answers the empty list without looking at the
    convention. *)
Theorem get_args_all_or_nothing t num conv s :
  (forall vs,
     get_args t num conv s = (Ok vs, s) <->
     length vs = Z.to_nat num /\
     forall i v, vs !! i = Some v -> get_arg t (Z.of_nat i) conv s = (Ok v, s)) /\
  (forall e s',
     get_args t num conv s = (Raise e, s') ->
     exists i, 0 <= i < num /\ get_arg t i conv s = (Raise e, s)) /\
  (num <= 0 -> get_args t num conv s = (Ok [], s)).
Proof.
  pose proof (fun i : nat => stateless_get_arg t (Z.of_nat i) conv) as Hst.
  split; [|split].
  - intros vs. unfold get_args. split.
    + intros H. apply mapM_ok_inv in H; [|exact Hst]. destruct H as [_ HF].
      split.
      * apply Forall2_length in HF. now rewrite length_seq in HF.
      * intros i v Hv.
        destruct (Forall2_lookup_r _ _ _ _ _ HF Hv) as (x & Hx & E).
        apply lookup_seq in Hx. destruct Hx as [-> _]. exact E.
    + intros [Hlen Hall]. apply mapM_ok_intro.
      apply Forall2_same_length_lookup. split; [now rewrite length_seq|].
      intros i x v Hx Hv. apply lookup_seq in Hx. destruct Hx as [-> _].
      now apply Hall.
  - intros e s' H. unfold get_args in H.
    apply mapM_raise_inv in H; [|exact Hst].
    destruct H as (i & Hi & E). apply elem_of_seq in Hi.
    exists (Z.of_nat i). split; [lia | exact E].
  - intros Hle. unfold get_args.
    replace (Z.to_nat num) with 0%nat by lia. reflexivity.
Qed.

Lemma get_args_all_or_nothing_witness :
  let s := CPU [10; 11; 12; 13] 0 (fun _ _ => None) [] in
  get_args arm 0 "bogus" s = (Ok [], s) /\
  get_args arm 2 "default" s = (Ok [10; 11], s).
Proof.
  intros s. split.
  - apply (proj2 (proj2 (get_args_all_or_nothing arm 0 "bogus" s))). lia.
  - apply (proj1 (get_args_all_or_nothing arm 2 "default" s) [10; 11]).
    split; [reflexivity|].
    intros [|[|i]] v H; simpl in H; try discriminate H;
      injection H as <-; reflexivity.
Defined.

(** *** Return values: writing, then reading *)

(** X12. On the MIPS variants a syscall result written with [set_retval]
    is read back by [get_retval] as the caller meant it, as long as what
    is stored fits the register word.  Written without the failure flag, a
    value from 0 up to 2^w-1 is read back unchanged.  Written with the
    failure flag, a negative value above -2^w (an error code such as -7)
    is read back unchanged, and a value from 0 up to 2^(w-1)-1 is read
    back negated. *)
Theorem mips_syscall_retval_roundtrip t v (failure : bool) s :
  is_mips t ->
  (7 < length (regs s))%nat ->
  (if failure then - 2 ^ bits t < v < 2 ^ (bits t - 1)
   else 0 <= v < 2 ^ bits t) ->
  exists s',
    set_retval t v "syscall" failure s = (Ok tt, s') /\
    get_retval t "syscall" s'
    = (Ok (if failure then (if v <? 0 then v else - v) else v), s').
Proof.
  intros Hm Hlen Hfit.
  destruct (mips_tables t Hm) as (HA3 & HV0 & _ & _).
  destruct (mips_word_bounds t Hm) as [_ Hb].
  assert (Hno : forall i, ~ (class_of t = Aarch64Arch /\ i = 32%nat)).
  { intros i [H _]. destruct Hm as [H'|H']; congruence. }
  set (stored := if failure && (from_unsigned_guest t v <? 0)
                 then -1 * from_unsigned_guest t v else v).
  assert (Hst : stored = if failure then (if v <? 0 then - v else v) else v).
  { unfold stored, from_unsigned_guest. destruct failure; simpl; [|reflexivity].
    destruct (Z.leb_spec (2 ^ (bits t - 1)) v); [lia|].
    destruct (Z.ltb_spec v 0); lia. }
  assert (Hin : 0 <= stored < 2 ^ bits t).
  { rewrite Hst. destruct failure; [|exact Hfit].
    assert (Hle : 2 ^ (bits t - 1) <= 2 ^ bits t).
    { destruct (mips_targets t Hm) as [-> | [-> | ->]]; discriminate. }
    destruct (Z.ltb_spec v 0); lia. }
  set (s' := with_regs s (<[2%nat := stored]> (<[7%nat := Z.b2z failure]> (regs s)))).
  exists s'. split.
  - rewrite (mips_set_retval_run t v failure s Hm Hlen). cbv zeta.
    fold stored. destruct (decide (0 <= stored < 2 ^ bits t)); [reflexivity | contradiction].
  - assert (Hg7 : get_reg t (RegName "A3") s' = (Ok (Z.b2z failure), s')).
    { apply (get_reg_read t "A3" 7); [exact HA3 | apply Hno |].
      simpl. rewrite list_lookup_insert_ne by discriminate.
      apply list_lookup_insert_eq. lia. }
    assert (Hg2 : get_reg t (RegName "V0") s' = (Ok stored, s')).
    { apply (get_reg_read t "V0" 2); [exact HV0 | apply Hno |].
      simpl. apply list_lookup_insert_eq. rewrite length_insert. lia. }
    rewrite (mips_get_retval_syscall t s' _ _ Hm Hg7 Hg2), Hst.
    apply (f_equal (fun x => (Ok x, s'))).
    destruct failure; simpl; [|lia].
    destruct (Z.ltb_spec v 0); lia.
Qed.

Lemma mips_syscall_retval_roundtrip_witness :
  exists s',
    set_retval mips (-7) "syscall" true (blank_cpu 32) = (Ok tt, s') /\
    get_retval mips "syscall" s' = (Ok (-7), s').
Proof.
  apply (mips_syscall_retval_roundtrip mips (-7) true (blank_cpu 32)).
  - left. reflexivity.
  - simpl. lia.
  - vm_compute. split; reflexivity.
Defined.

Lemma ret_val_reg_run t conv r s :
  reg_retval (class_of t) !! conv = Some r ->
  _get_ret_val_reg t conv s = (Ok r, s).
Proof. intros H. unfold _get_ret_val_reg. now rewrite H. Qed.

(** The return-value register of a convention is a name of the register
    table, and not the one AArch64 answers 0 for. *)
Lemma retval_register_known t conv r :
  reg_retval (class_of t) !! conv = Some r ->
  exists i, registers (class_of t) !! r = Some i /\
            ~ (class_of t = Aarch64Arch /\ i = 32%nat).
Proof.
  intros H.
  destruct (retval_registers_quiet (class_of t) conv r H) as [[i Hi] Hq].
  assert (Hr : PyStr.upper r = r).
  { assert (Hu : map_Forall (fun (_ : string) r => PyStr.upper r = r)
                            (reg_retval (class_of t)))
      by (destruct (class_of t); by_table).
    exact (Hu conv r H). }
  rewrite Hr in Hi, Hq. exists i. split; [exact Hi|].
  intros [_ ->]. now apply Hq.
Qed.

Lemma mips_retval_conventions t conv r :
  is_mips t ->
  reg_retval (class_of t) !! conv = Some r ->
  r = "V0" /\ (conv = "default" \/ conv = "syscall").
Proof.
  intros Hm H.
  assert (E : reg_retval (class_of t)
              = <["syscall" := "V0"]> (<["default" := "V0"]> ∅))
    by (destruct Hm as [Hc|Hc]; rewrite Hc; reflexivity).
  rewrite E in H.
  apply lookup_insert_Some in H. destruct H as [[<- <-] | [_ H]]; [auto|].
  apply lookup_insert_Some in H. destruct H as [[<- <-] | [_ H]]; [auto|].
  rewrite lookup_empty in H. discriminate.
Qed.

(** X13. A return value written under a convention is read back under
    the same convention: on every architecture, for a convention the
    return-value table defines (on the MIPS variants other than
    "syscall"), on a register file that has the slot of its register,
    [set_retval] of a word-sized value succeeds whatever the failure flag,
    changes that one slot only, and [get_retval] then answers the value
    written, reinterpreted as a signed word when the convention is
    "syscall". *)
Theorem retval_roundtrip t conv r v failure s :
  reg_retval (class_of t) !! conv = Some r ->
  (is_mips t -> conv <> "syscall") ->
  (forall i, registers (class_of t) !! r = Some i -> (i < length (regs s))%nat) ->
  0 <= v < 2 ^ bits t ->
  exists i s',
    registers (class_of t) !! r = Some i /\
    set_retval t v conv failure s = (Ok tt, s') /\
    s' = with_regs s (<[i := v]> (regs s)) /\
    get_retval t conv s'
    = (Ok (if decide (conv = "syscall") then from_unsigned_guest t v else v), s').
Proof.
  intros Hr Hmips Hslot Hfit.
  destruct (retval_register_known t conv r Hr) as (i & Hi & Hq).
  specialize (Hslot i Hi).
  set (s' := with_regs s (<[i := v]> (regs s))).
  assert (Hset : base_set_retval t v conv s = (Ok tt, s')).
  { unfold base_set_retval. rewrite (bind_ok _ _ _ _ _ (ret_val_reg_run t conv r s Hr)).
    now apply set_reg_write. }
  assert (Hread : get_reg t (RegName r) s' = (Ok v, s')).
  { apply (get_reg_read t r i); [exact Hi | exact Hq |].
    simpl. now apply list_lookup_insert_eq. }
  exists i, s'. split; [exact Hi|].
  destruct (decide (is_mips t)) as [Hm|Hm].
  - specialize (Hmips Hm).
    destruct (mips_retval_conventions t conv r Hm Hr) as [-> [-> | ->]]; [|congruence].
    assert (Es : set_retval t v "default" failure = base_set_retval t v "default").
    { unfold set_retval. destruct Hm as [H|H]; rewrite H; reflexivity. }
    assert (Eg : get_retval t "default" = mips_get_retval t "default").
    { unfold get_retval. destruct Hm as [H|H]; rewrite H; reflexivity. }
    rewrite Es, Eg. split; [exact Hset|]. split; [reflexivity|].
    unfold mips_get_retval. simpl decide. cbv iota.
    rewrite (bind_ok _ _ s' 1 s') by reflexivity.
    rewrite (bind_ok _ _ s' v s').
    + unfold ret. destruct (decide ("default" = "syscall")); [discriminate|].
      apply (f_equal (fun x => (Ok x, s'))). lia.
    + unfold base_get_retval.
      rewrite (bind_ok _ _ _ _ _ (ret_val_reg_run t "default" "V0" s' Hr)).
      now rewrite (bind_ok _ _ _ _ _ Hread).
  - assert (Es : set_retval t v conv failure = base_set_retval t v conv).
    { unfold set_retval, is_mips in *. destruct (class_of t); tauto. }
    assert (Eg : get_retval t conv = base_get_retval t conv).
    { unfold get_retval, is_mips in *. destruct (class_of t); tauto. }
    rewrite Es, Eg. split; [exact Hset|]. split; [reflexivity|].
    unfold base_get_retval.
    rewrite (bind_ok _ _ _ _ _ (ret_val_reg_run t conv r s' Hr)).
    rewrite (bind_ok _ _ _ _ _ Hread).
    destruct (decide (conv = "syscall")); reflexivity.
Qed.

Lemma retval_roundtrip_witness :
  exists i s',
    registers (class_of x86_64) !! "RAX" = Some i /\
    set_retval x86_64 (2 ^ 64 - 1) "syscall" true (blank_cpu 16) = (Ok tt, s') /\
    s' = with_regs (blank_cpu 16) (<[i := 2 ^ 64 - 1]> (regs (blank_cpu 16))) /\
    get_retval x86_64 "syscall" s' = (Ok (-1), s').
Proof.
  apply (retval_roundtrip x86_64 "syscall" "RAX" (2 ^ 64 - 1) true (blank_cpu 16)).
  - reflexivity.
  - intros [H|H]; discriminate H.
  - intros i H. vm_compute in H. injection H as <-. simpl. lia.
  - vm_compute. split; [discriminate | reflexivity].
Defined.

(** *** Convention names in [get_retval] *)

(** [get_retval] under "default" answers the return-value register as it
    is, on every architecture. *)
Lemma get_retval_default_raw t r raw s :
  reg_retval (class_of t) !! "default" = Some r ->
  get_reg t (RegName r) s = (Ok raw, s) ->
  forall conv, (if decide (is_mips t) then conv <> "syscall" else conv = "default") ->
  get_retval t conv s = (Ok raw, s).
Proof.
  intros Hr Hread conv Hconv.
  assert (Hbase : base_get_retval t "default" s = (Ok raw, s)).
  { unfold base_get_retval.
    rewrite (bind_ok _ _ _ _ _ (ret_val_reg_run t "default" r s Hr)).
    now rewrite (bind_ok _ _ _ _ _ Hread). }
  destruct (decide (is_mips t)) as [Hm|Hm].
  - assert (Eg : get_retval t conv = mips_get_retval t conv).
    { unfold get_retval. destruct Hm as [H|H]; rewrite H; reflexivity. }
    rewrite Eg. unfold mips_get_retval.
    destruct (decide (conv = "syscall")); [contradiction|].
    rewrite (bind_ok _ _ s 1 s) by reflexivity.
    rewrite (bind_ok _ _ _ _ _ Hbase).
    unfold ret. apply (f_equal (fun x => (Ok x, s))). lia.
  - subst conv.
    assert (Eg : get_retval t "default" = base_get_retval t "default").
    { unfold get_retval, is_mips in *. destruct (class_of t); tauto. }
    now rewrite Eg.
Qed.

(** X14. What [get_retval] does with a convention name the return-value
    table does not define depends on the class.  On the MIPS variants
    every name other than "syscall", defined or not, is served as
    "default": the call answers V0 as it is.  On the other classes an
    undefined name raises the unsupported-[get_retval] error and reads
    nothing. *)
Theorem get_retval_convention_names t conv s :
  (is_mips t -> conv <> "syscall" ->
   get_retval t conv s = get_retval t "default" s /\
   forall raw, get_reg t (RegName "V0") s = (Ok raw, s) ->
               get_retval t conv s = (Ok raw, s)) /\
  (~ is_mips t -> reg_retval (class_of t) !! conv = None ->
   get_retval t conv s = (Raise (UnsupportedGetRetval conv), s)).
Proof.
  split.
  - intros Hm Hconv.
    destruct (mips_tables t Hm) as (_ & _ & Hdef & _).
    assert (Eg : forall c, get_retval t c = mips_get_retval t c).
    { intros c. unfold get_retval. destruct Hm as [H|H]; rewrite H; reflexivity. }
    split.
    + rewrite !Eg. unfold mips_get_retval.
      destruct (decide (conv = "syscall")); [contradiction|].
      destruct (decide ("default" = "syscall")); [discriminate | reflexivity].
    + intros raw Hread.
      apply (get_retval_default_raw t "V0" raw s Hdef Hread).
      destruct (decide (is_mips t)); [exact Hconv | contradiction].
  - intros Hm Hnone.
    assert (Eg : get_retval t conv = base_get_retval t conv).
    { unfold get_retval, is_mips in *. destruct (class_of t); tauto. }
    rewrite Eg. unfold base_get_retval, bind, _get_ret_val_reg.
    now rewrite Hnone.
Qed.

Lemma get_retval_convention_names_witness :
  let s := CPU (<[2%nat := 5]> (replicate 32 0)) 0 (fun _ _ => None) [] in
  get_retval mips64 "bogus" s = (Ok 5, s) /\
  get_retval arm "arm32" (blank_cpu 16)
  = (Raise (UnsupportedGetRetval "arm32"), blank_cpu 16).
Proof.
  intros s. split.
  - apply (proj1 (get_retval_convention_names mips64 "bogus" s)).
    + right. reflexivity.
    + discriminate.
    + reflexivity.
  - apply (proj2 (get_retval_convention_names arm "arm32" (blank_cpu 16))).
    + intros [H|H]; discriminate H.
    + reflexivity.
Defined.

(** X15. [get_return_value], the deprecated spelling, answers the
    return-value register of the "default" convention as it is on every
    architecture; the MIPS one takes a convention and ignores it, so even
    under "syscall" with the status register A3 holding 1 it answers V0
    unsigned and unflipped. *)
Theorem get_return_value_is_raw t r raw s :
  reg_retval (class_of t) !! "default" = Some r ->
  get_reg t (RegName r) s = (Ok raw, s) ->
  get_return_value t s = (Ok raw, s) /\
  forall conv, mips_get_return_value t conv s = (Ok raw, s).
Proof.
  intros Hr Hread.
  assert (E : get_retval t "default" s = (Ok raw, s)).
  { apply (get_retval_default_raw t r raw s Hr Hread).
    destruct (decide (is_mips t)); [discriminate | reflexivity]. }
  split; [exact E | intros conv; exact E].
Qed.

Lemma get_return_value_is_raw_witness :
  let s := CPU (<[7%nat := 1]> (<[2%nat := 2 ^ 32 - 1]> (replicate 32 0))) 0
               (fun _ _ => None) [] in
  get_return_value mips s = (Ok 4294967295, s) /\
  forall conv, mips_get_return_value mips conv s = (Ok 4294967295, s).
Proof.
  intros s.
  apply (get_return_value_is_raw mips "V0" 4294967295 s); reflexivity.
Defined.

(** *** Program counter and return address *)

Lemma write_pc_run w v s :
  0 <= v < 2 ^ w -> write_pc w v s = (Ok tt, with_pc s v).
Proof.
  intros H. unfold write_pc.
  destruct (decide (0 <= v < 2 ^ w)); [reflexivity | contradiction].
Qed.

(** X16. A word-sized program counter can be written and read back on
    every architecture.  On ARM it is slot 15 of the register file, the
    one named "IP", so the write needs that slot and shows under that
    name; on every other class it is a field of its own and the write
    leaves the register file untouched. *)
Theorem pc_roundtrip t v s :
  (class_of t = ArmArch -> (15 < length (regs s))%nat) ->
  0 <= v < 2 ^ bits t ->
  exists s',
    set_pc t v s = (Ok tt, s') /\
    get_pc t s' = (Ok v, s') /\
    (class_of t = ArmArch ->
     s' = with_regs s (<[15%nat := v]> (regs s)) /\
     get_reg t (RegName "IP") s' = (Ok v, s')) /\
    (class_of t <> ArmArch -> s' = with_pc s v).
Proof.
  intros Hslot Hfit.
  destruct (decide (class_of t = ArmArch)) as [Hc|Hc].
  - assert (t = arm) as -> by (destruct t; try discriminate Hc; reflexivity).
    specialize (Hslot eq_refl).
    exists (with_regs s (<[15%nat := v]> (regs s))).
    destruct (write_then_read_slot arm 15 v s Hslot Hfit) as [Hw Hr].
    split; [exact Hw|]. split; [exact Hr|]. split; [|contradiction].
    intros _. split; [reflexivity | exact Hr].
  - exists (with_pc s v).
    assert (Es : set_pc t v = write_pc (bits t) v)
      by (destruct t; try (exfalso; apply Hc; reflexivity); reflexivity).
    assert (Hr : get_pc t (with_pc s v) = (Ok v, with_pc s v))
      by (destruct t; try (exfalso; apply Hc; reflexivity); reflexivity).
    split; [rewrite Es; now apply write_pc_run|].
    split; [exact Hr|]. split; [contradiction | reflexivity].
Qed.

Lemma pc_roundtrip_witness :
  exists s',
    set_pc arm 4096 (blank_cpu 16) = (Ok tt, s') /\
    get_pc arm s' = (Ok 4096, s') /\
    (class_of arm = ArmArch ->
     s' = with_regs (blank_cpu 16) (<[15%nat := 4096]> (regs (blank_cpu 16))) /\
     get_reg arm (RegName "IP") s' = (Ok 4096, s')) /\
    (class_of arm <> ArmArch -> s' = with_pc (blank_cpu 16) 4096).
Proof.
  apply (pc_roundtrip arm 4096 (blank_cpu 16)).
  - intros _. simpl. lia.
  - vm_compute. split; [discriminate | reflexivity].
Defined.

(** X17. Where a class records a return-address register ([reg_retaddr]:
    ARM, AArch64, the MIPS variants), [get_return_address] reads exactly
    that slot; where it records none (X86, X86_64), it reads one word, of
    the architecture's word size, at the address held in the
    stack-pointer slot [reg_sp], and raises the memory-read error for that
    address when the read fails. *)
Theorem return_address_location t s :
  match reg_retaddr (class_of t) with
  | Some i => get_return_address t s = get_reg t (RegIdx i) s
  | None =>
      forall sp,
        get_reg t (RegIdx (reg_sp (class_of t))) s = (Ok sp, s) ->
        get_return_address t s = virtual_memory_read sp (bits t / 8) s /\
        (vmem s sp (bits t / 8) = None ->
         get_return_address t s = (Raise (MemoryReadFailed sp (bits t / 8)), s))
  end.
Proof.
  assert (Hx : forall name n sp,
             get_reg t (RegName name) s = (Ok sp, s) ->
             (esp <- get_reg t (RegName name) ;; virtual_memory_read esp n) s
             = virtual_memory_read sp n s /\
             (vmem s sp n = None ->
              (esp <- get_reg t (RegName name) ;; virtual_memory_read esp n) s
              = (Raise (MemoryReadFailed sp n), s))).
  { intros name n sp H. rewrite (bind_ok _ _ _ _ _ H). split; [reflexivity|].
    intros Hf. unfold virtual_memory_read. now rewrite Hf. }
  destruct t; cbn [class_of reg_retaddr]; try reflexivity.
  - intros sp H. exact (Hx "ESP" 4 sp H).
  - intros sp H. exact (Hx "RSP" 8 sp H).
Qed.

Lemma return_address_location_witness :
  let s := CPU [0; 0; 0; 0; 8192; 0; 0; 0] 0
               (fun a n => if decide (a = 8192 /\ n = 4) then Some 77 else None) [] in
  get_return_address i386 s = virtual_memory_read 8192 (bits i386 / 8) s /\
  (vmem s 8192 (bits i386 / 8) = None ->
   get_return_address i386 s
   = (Raise (MemoryReadFailed 8192 (bits i386 / 8)), s)).
Proof.
  intros s.
  apply (return_address_location i386 s 8192). reflexivity.
Defined.

(** *** Failed writes *)

Lemma set_reg_raise_state t r v s e s' :
  set_reg t r v s = (Raise e, s') -> s' = s.
Proof.
  assert (Hv : forall idx, _set_reg_val t idx v s = (Raise e, s') -> s' = s).
  { intros idx H.
    destruct (set_reg_val_cases t idx v s) as [(_ & _ & E) | [(_ & _ & E) | [_ E]]];
      rewrite E in H; [discriminate | now injection H | now injection H]. }
  destruct r as [name|idx|]; simpl.
  - destruct (registers (class_of t) !! PyStr.upper name); [apply Hv|].
    now intros [= _ <-].
  - apply Hv.
  - now intros [= _ <-].
Qed.

Lemma bind_stateless_raise_state {A B} (m : M A) (f : A -> M B) s e s' :
  stateless m ->
  (forall a, f a s = (Raise e, s') -> s' = s) ->
  bind m f s = (Raise e, s') -> s' = s.
Proof.
  intros Hm Hf. unfold bind. pose proof (Hm s) as Hs.
  destruct (m s) as [[a|e0] s0]; simpl in Hs; subst s0.
  - apply Hf.
  - now intros [= _ <-].
Qed.

(** X18. A write that raises has written nothing, with one exception.
    When [set_reg], [set_arg] or [set_pc] raises, on any architecture, the
    CPU is left exactly as it was, and so it is when [set_retval] raises,
    unless the class is a MIPS variant and the convention "syscall": that
    call writes the status register A3 before the return register V0, so
    when the value to store in V0 does not fit the word the call raises
    the overflow error and A3 already holds the failure flag. *)
Theorem failed_write_effects t s e s' :
  (forall r v, set_reg t r v s = (Raise e, s') -> s' = s) /\
  (forall idx v conv, set_arg t idx v conv s = (Raise e, s') -> s' = s) /\
  (forall v, set_pc t v s = (Raise e, s') -> s' = s) /\
  (forall v conv failure,
     set_retval t v conv failure s = (Raise e, s') ->
     s' = s \/
     (is_mips t /\ conv = "syscall" /\ e = OverflowError /\
      s' = with_regs s (<[7%nat := Z.b2z failure]> (regs s)))) /\
  (forall v (failure : bool),
     is_mips t ->
     (7 < length (regs s))%nat ->
     ~ 0 <= (if failure && (from_unsigned_guest t v <? 0)
             then -1 * from_unsigned_guest t v else v) < 2 ^ bits t ->
     set_retval t v "syscall" failure s
     = (Raise OverflowError, with_regs s (<[7%nat := Z.b2z failure]> (regs s)))).
Proof.
  assert (Hbase : forall v conv, base_set_retval t v conv s = (Raise e, s') -> s' = s).
  { intros v conv. unfold base_set_retval. apply bind_stateless_raise_state.
    - intros s0. unfold _get_ret_val_reg.
      destruct (reg_retval (class_of t) !! conv); reflexivity.
    - intros r. apply set_reg_raise_state. }
  split; [|split; [|split; [|split]]].
  - intros r v. apply set_reg_raise_state.
  - intros idx v conv. unfold set_arg. apply bind_stateless_raise_state.
    + apply stateless_get_arg_loc.
    + intros loc. apply set_reg_raise_state.
  - intros v. destruct (decide (class_of t = ArmArch)) as [Hc|Hc].
    + assert (t = arm) as -> by (destruct t; try discriminate Hc; reflexivity).
      change (set_pc arm v) with (set_reg arm (RegIdx 15) v).
      apply set_reg_raise_state.
    + assert (Es : set_pc t v = write_pc (bits t) v)
        by (destruct t; try (exfalso; apply Hc; reflexivity); reflexivity).
      rewrite Es. unfold write_pc.
      destruct (decide (0 <= v < 2 ^ bits t)); [discriminate | now intros [= _ <-]].
  - intros v conv failure.
    destruct (decide (is_mips t)) as [Hm|Hm].
    + destruct (decide (conv = "syscall")) as [->|Hconv].
      * destruct (decide (7 < length (regs s))%nat) as [Hlen|Hlen].
        { rewrite (mips_set_retval_run t v failure s Hm Hlen). cbv zeta.
          destruct (decide _); [discriminate|].
          intros [= <- <-]. right. auto. }
        left. revert H.
        destruct (mips_tables t Hm) as (HA3 & _).
        assert (E : set_retval t v "syscall" failure
                    = mips_set_retval t v "syscall" failure).
        { unfold set_retval. destruct Hm as [H|H]; rewrite H; reflexivity. }
        rewrite E. unfold mips_set_retval.
        destruct (decide ("syscall" = "syscall")); [|congruence].
        assert (Ha3 : set_reg t (RegName "a3") (Z.b2z failure) s
                      = (Raise IndexError, s)).
        { unfold set_reg. change (PyStr.upper "a3") with "A3". rewrite HA3.
          destruct (set_reg_val_cases t 7 (Z.b2z failure) s)
            as [(H & _) | [(H & _) | [_ H]]]; [contradiction | contradiction | exact H]. }
        rewrite (bind_raise _ _ s IndexError s); [now intros [= _ <-]|].
        now rewrite (bind_raise _ _ _ _ _ Ha3).
      * assert (E : set_retval t v conv failure = base_set_retval t v conv).
        { unfold set_retval, mips_set_retval.
          destruct Hm as [H|H]; rewrite H;
            (destruct (decide (conv = "syscall")); [contradiction | reflexivity]). }
        rewrite E. intros H. left. revert H. apply Hbase.
    + assert (E : set_retval t v conv failure = base_set_retval t v conv).
      { unfold set_retval, is_mips in *. destruct (class_of t); tauto. }
      rewrite E. intros H. left. revert H. apply Hbase.
  - intros v failure Hm Hlen Hover.
    rewrite (mips_set_retval_run t v failure s Hm Hlen). cbv zeta.
    destruct (decide _); [contradiction | reflexivity].
Qed.

Lemma failed_write_effects_witness :
  set_retval mips (2 ^ 32) "syscall" true (blank_cpu 32)
  = (Raise OverflowError,
     with_regs (blank_cpu 32) (<[7%nat := 1]> (regs (blank_cpu 32)))).
Proof.
  apply (proj2 (proj2 (proj2 (proj2
           (failed_write_effects mips (blank_cpu 32) OverflowError (blank_cpu 32)))))
           (2 ^ 32) true).
  - left. reflexivity.
  - simpl. lia.
  - vm_compute. intros [_ H]. discriminate H.
Defined.

(** *** Word sizes *)

(** X19. [_determine_bits] knows eight architecture names and fails its
    assertion on every other name; for a name it knows, the width is 32 or
    64 bits and the register size is that width in bytes.  Every
    architecture that has a class here is among the names it knows, and
    the word the stack reader uses is that register size. *)
Theorem determine_bits_sound :
  (forall name,
     is_Some (_determine_bits name) <->
     name ∈ ["i386"; "x86_64"; "arm"; "aarch64"; "ppc"; "mips"; "mipsel"; "mips64"]) /\
  (forall name b e sz,
     _determine_bits name = Some (b, e, sz) ->
     (b = 32 \/ b = 64) /\ 8 * sz = b) /\
  (forall t, exists e, _determine_bits (arch_name t) = Some (bits t, e, bits t / 8)).
Proof.
  split; [|split].
  - intros name. unfold _determine_bits. split.
    + intros [x Hx].
      repeat (destruct (decide (name = _)) as [->|?]; [set_solver|]).
      discriminate.
    + intros H.
      repeat (apply elem_of_cons in H; destruct H as [->|H]; [now eexists|]).
      now apply elem_of_nil in H.
  - intros name b e sz. unfold _determine_bits.
    repeat (destruct (decide (name = _));
            [intros [= <- _ <-]; split; [auto | reflexivity]|]).
    discriminate.
  - intros t. destruct t; eexists; reflexivity.
Qed.

Lemma determine_bits_sound_witness :
  (32 = 32 \/ 32 = 64) /\ 8 * 4 = 32.
Proof.
  apply (proj1 (proj2 determine_bits_sound) "mipsel" 32 little 4).
  reflexivity.
Defined.
